(** * ScriptRunner: the execution supervisor of lib/streamlit/ScriptRunner.py

    A shallow embedding of the [ScriptRunner] class (state machine, request
    API, worker procedure, checkpoint) and of the syntax rewriter
    ([_modify_ast] and friends), followed by the properties the
    specification states about them.

    Conventions.
    - The mutable object [self] of the Python class is the record
      [ScriptRunner]; everything else the methods touch (the notification
      bus, the output sink, [sys.argv], the file system, the configuration)
      is gathered in [World].  Observable effects are appended to
      [trace], oldest first.
    - Methods called by the controller never raise and never block: they
      are functions [World -> World].
    - Methods run by the worker may raise, and may block in the pause loop;
      they live in the monad [M].  What the controller does while the
      worker sleeps is given by a [schedule]. *)

From Stdlib Require Import QArith.
From stdpp Require Import base strings list gmap.

Set Warnings "-register-all".

Local Open Scope string_scope.
Local Open Scope list_scope.
Local Open Scope nat_scope.

(** ** Data model *)

(** [class State]. *)
Inductive State :=
| INITIAL
| RUNNING
| STOP_REQUESTED
| RERUN_REQUESTED
| PAUSE_REQUESTED
| PAUSED
| STOPPED.

#[global] Instance State_eq_dec : EqDecision State.
Proof. solve_decision. Defined.

(** The exceptions the module raises or catches.  [StopException] and
    [RerunException] derive from [ScriptControlException], itself a
    [BaseException]; [PyException] stands for any other exception class a
    script may raise. *)
Inductive exn :=
| StopException
| RerunException
| ScriptControlException
| RuntimeError (msg : string)
| AssertionError
| SyntaxError (msg : string)
| IOError (path : string)
| PyException (cls msg : string).

#[global] Instance exn_eq_dec : EqDecision exn.
Proof. solve_decision. Defined.

(** Values bound in a script's namespace. *)
Inductive pyval :=
| VStr (s : string)
| VInt (z : Z)
| VNone.

#[global] Instance pyval_eq_dec : EqDecision pyval.
Proof. solve_decision. Defined.

Abbreviation namespace := (gmap string pyval).

(** Effects visible outside the runner. *)
Inductive event :=
| StateChanged (s : State)        (* on_state_changed.send(state) *)
| FileChangeNotHandled            (* on_file_change_not_handled.send() *)
| SpawnThread                     (* threading.Thread(target=self._run).start() *)
| StReset                         (* st._reset() *)
| StException (e : exn)           (* st.exception(e) *)
| StWrite (v : pyval)             (* a value a script sends to the sink *)
| SetTrace                        (* sys.settrace(trace_calls) *)
| Sleep (seconds : Q).            (* time.sleep(seconds) *)

(** The session descriptor [report]. *)
Record Report := mkReport {
  script_path : string;
  argv : list string;
}.

(** The fields of a [ScriptRunner] instance.  [_state] is [None] only while
    [__init__] runs. *)
Record ScriptRunner := mkScriptRunner {
  _report : Report;
  _state : option State;
  _main_thread_id : nat;
  _paused : bool;                    (* threading.Event *)
  _state_change_requested : bool;    (* threading.Event *)
  run_on_save : bool;
}.

(** [config.get_option] for the three options the module reads. *)
Record Config := mkConfig {
  proxy_runOnSave : bool;
  runner_autoWrite : bool;
  runner_installTracer : bool;
}.

Record World := mkWorld {
  self : ScriptRunner;
  trace : list event;
  sys_argv : list string;
  sys_has_settrace : bool;           (* hasattr(sys, 'settrace') *)
  files : gmap string string;        (* path |-> text of the file *)
  options : Config;
}.

(** Field updates. *)
Definition with_self (f : ScriptRunner -> ScriptRunner) (w : World) : World :=
  mkWorld (f (self w)) (trace w) (sys_argv w) (sys_has_settrace w)
          (files w) (options w).

Definition emit (e : event) (w : World) : World :=
  mkWorld (self w) (trace w ++ [e]) (sys_argv w) (sys_has_settrace w)
          (files w) (options w).

Definition set_sys_argv (a : list string) (w : World) : World :=
  mkWorld (self w) (trace w) a (sys_has_settrace w) (files w) (options w).

Definition assign_state (s : option State) (r : ScriptRunner) : ScriptRunner :=
  mkScriptRunner (_report r) s (_main_thread_id r) (_paused r)
                 (_state_change_requested r) (run_on_save r).

Definition assign_paused (b : bool) (r : ScriptRunner) : ScriptRunner :=
  mkScriptRunner (_report r) (_state r) (_main_thread_id r) b
                 (_state_change_requested r) (run_on_save r).

Definition assign_state_change_requested (b : bool) (r : ScriptRunner)
  : ScriptRunner :=
  mkScriptRunner (_report r) (_state r) (_main_thread_id r) (_paused r)
                 b (run_on_save r).

Definition assign_argv (a : list string) (r : ScriptRunner) : ScriptRunner :=
  mkScriptRunner (mkReport (script_path (_report r)) a) (_state r)
                 (_main_thread_id r) (_paused r)
                 (_state_change_requested r) (run_on_save r).

(** ** The state machine and the request API (controller side) *)

(** [_set_state]: nothing happens when the state is already [new_state];
    otherwise the state is stored and the notification sent. *)
Definition _set_state (new_state : State) (w : World) : World :=
  if decide (_state (self w) = Some new_state) then w
  else emit (StateChanged new_state)
            (with_self (assign_state (Some new_state)) w).

(** [spawn_script_thread]: a thread with target [_run] is started. *)
Definition spawn_script_thread (w : World) : World := emit SpawnThread w.

Definition is_running (w : World) : bool :=
  bool_decide (_state (self w) = Some RUNNING).

Definition is_fully_stopped (w : World) : bool :=
  bool_decide (_state (self w) = Some INITIAL)
  || bool_decide (_state (self w) = Some STOPPED).

Definition request_rerun (new_argv : list string) (w : World) : World :=
  let w := with_self (assign_argv new_argv) w in
  if is_fully_stopped w then spawn_script_thread w
  else
    let w := _set_state RERUN_REQUESTED w in
    let w := with_self (assign_paused false) w in
    with_self (assign_state_change_requested true) w.

Definition request_stop (w : World) : World :=
  if is_fully_stopped w then w
  else
    let w := _set_state STOP_REQUESTED w in
    let w := with_self (assign_paused false) w in
    with_self (assign_state_change_requested true) w.

Definition _request_pause (w : World) : World :=
  if is_fully_stopped w then w
  else
    let w := _set_state PAUSE_REQUESTED w in
    with_self (assign_state_change_requested true) w.

Definition request_pause_unpause (w : World) : World :=
  if decide (_state (self w) = Some PAUSED) then
    let w := _set_state RUNNING w in
    with_self (assign_paused false) w
  else _request_pause w.

Definition maybe_handle_file_changed (w : World) : World :=
  if run_on_save (self w) then request_rerun (argv (_report (self w))) w
  else emit FileChangeNotHandled w.

(** [__init__], run by thread [tid]: the fields are set, then the state
    becomes [INITIAL] through [_set_state]. *)
Definition __init__ (report : Report) (tid : nat) (cfg : Config)
    (has_settrace : bool) (fs : gmap string string) : World :=
  let r := mkScriptRunner report None tid false false (proxy_runOnSave cfg) in
  _set_state INITIAL (mkWorld r [] [] has_settrace fs cfg).

(** What the controller (or the file watcher on its behalf) may ask. *)
Inductive request :=
| RequestRerun (new_argv : list string)
| RequestStop
| RequestPauseUnpause
| FileChanged.

Definition apply_request (q : request) (w : World) : World :=
  match q with
  | RequestRerun a => request_rerun a w
  | RequestStop => request_stop w
  | RequestPauseUnpause => request_pause_unpause w
  | FileChanged => maybe_handle_file_changed w
  end.

Definition apply_requests (qs : list request) (w : World) : World :=
  foldl (fun w q => apply_request q w) w qs.

(** ** The syntax rewriter *)

(** The part of Python's [ast] the rewriter looks at.  [OtherExpr] and
    [OtherStmt] stand for every node class it passes through untouched. *)
Inductive expr_context := Load | Store.

Inductive expr :=
| Str (s : string)
| Name (id : string) (ctx : expr_context)
| Attribute (value : expr) (attr : string) (ctx : expr_context)
| Call (func : expr) (args : list expr) (keywords : list (string * expr))
| Tuple (elts : list expr)
| OtherExpr (src : string).

Record alias := mkAlias {
  name : string;
  asname : option string;
}.

Inductive stmt :=
| Expr (value : expr)
| Assign (targets : list expr) (value : expr)
| FunctionDef (fname : string) (body : list stmt)
| Import (names : list alias)
| ImportFrom (module : string) (names : list alias)
| OtherStmt (src : string).

(** [type(node) in (ast.ImportFrom, ast.Import)]. *)
Definition is_import (node : stmt) : bool :=
  match node with
  | Import _ | ImportFrom _ _ => true
  | _ => false
  end.

(** [type(node) is ast.Expr and type(node.value) is ast.Str]. *)
Definition is_docstring (node : stmt) : bool :=
  match node with
  | Expr (Str _) => true
  | _ => false
  end.

(** Python's [list.insert(i, x)] for [i >= 0]: [x] lands before index [i],
    or at the end when the list is shorter. *)
Definition py_insert {A} (i : nat) (x : A) (l : list A) : list A :=
  take i l ++ x :: drop i l.

(** [import streamlit as __streamlit__]. *)
Definition _build_st_import_statement : stmt :=
  Import [mkAlias "streamlit" (Some "__streamlit__")].

(** A call of [__streamlit__._transparent_write] on the argument list
    [nodes]. *)
Definition _build_st_write_call (nodes : list expr) : expr :=
  Call (Attribute (Name "__streamlit__" Load) "_transparent_write" Load)
       nodes [].

Definition _insert_import_statement (body : list stmt) : list stmt :=
  let st_import := _build_st_import_statement in
  match body with
  | node0 :: _ =>
      if is_import node0 then py_insert 1 st_import body
      else
        match body with
        | n0 :: n1 :: _ =>
            if is_docstring n0 && is_import n1
            then py_insert 2 st_import body
            else py_insert 0 st_import body
        | _ => py_insert 0 st_import body
        end
  | [] => py_insert 0 st_import body
  end.

(** [_get_st_write_from_expr(node, i)], on [node.value]. *)
Definition _get_st_write_from_expr (value : expr) (i : nat) : option expr :=
  match value with
  | Call _ _ _ => None
  | Str _ =>
      if decide (i = 0) then None
      else Some (_build_st_write_call [value])
  | Tuple [elt] => Some (_build_st_write_call [elt])
  | Name id _ =>
      Some (_build_st_write_call [Str ("**" +:+ id +:+ "**"); value])
  | _ => Some (_build_st_write_call [value])
  end.

(** [_get_st_write_from_assign(node, i)], on [node.value]. *)
Definition _get_st_write_from_assign (value : expr) (i : nat) : option expr :=
  match value with
  | Tuple [elt] => Some (_build_st_write_call [elt])
  | _ => None
  end.

(** One turn of the loop of [_modify_ast] on the [i]-th node of a body.
    A function definition is rewritten in place by the recursive call
    [_modify_ast(node, is_root=False)], which walks [node.body] with its
    own index. *)
Fixpoint _modify_node (i : nat) (node : stmt) {struct node} : stmt :=
  match node with
  | FunctionDef fname fbody =>
      FunctionDef fname
        ((fix each (j : nat) (l : list stmt) {struct l} : list stmt :=
            match l with
            | [] => []
            | n :: rest => _modify_node j n :: each (S j) rest
            end) 0 fbody)
  | Expr value =>
      match _get_st_write_from_expr value i with
      | Some st_write => Expr st_write
      | None => node
      end
  | Assign targets value =>
      match _get_st_write_from_assign value i with
      | Some st_write => Assign targets st_write
      | None => node
      end
  | _ => node
  end.

(** [for i, node in enumerate(tree.body): ...]. *)
Fixpoint _modify_each (i : nat) (l : list stmt) : list stmt :=
  match l with
  | [] => []
  | n :: rest => _modify_node i n :: _modify_each (S i) rest
  end.

(** [_modify_ast] on a tree that is already parsed.  Source locations
    ([ast.fix_missing_locations]) are not part of the model. *)
Definition _modify_tree (body : list stmt) (is_root : bool) : list stmt :=
  let body := _modify_each 0 body in
  if is_root then _insert_import_statement body else body.

(** ** The worker monad *)

(** How a call made by the worker ends: it returns, it raises, it waits
    for ever in the pause loop, or the model ran out of [fuel]. *)
Inductive result (A : Type) :=
| Ok (a : A)
| Raise (e : exn)
| Blocked
| OutOfFuel.
Arguments Ok {A} a.
Arguments Raise {A} e.
Arguments Blocked {A}.
Arguments OutOfFuel {A}.

(** The requests the controller issues during each successive sleep of the
    worker.  When the list is empty the controller stays silent for ever. *)
Definition schedule := list (list request).

Definition M (A : Type) : Type :=
  schedule -> World -> result A * schedule * World.

#[global] Instance M_ret : MRet M := fun A a sched w => (Ok a, sched, w).

#[global] Instance M_bind : MBind M := fun A B f m sched w =>
  match m sched w with
  | (Ok a, sched', w') => f a sched' w'
  | (Raise e, sched', w') => (Raise e, sched', w')
  | (Blocked, sched', w') => (Blocked, sched', w')
  | (OutOfFuel, sched', w') => (OutOfFuel, sched', w')
  end.

Definition get : M World := fun sched w => (Ok w, sched, w).
Definition modify (f : World -> World) : M unit :=
  fun sched w => (Ok tt, sched, f w).
Definition raise {A} (e : exn) : M A := fun sched w => (Raise e, sched, w).
Definition out_of_fuel {A} : M A := fun sched w => (OutOfFuel, sched, w).

(** [try: body / except BaseException as e: handler e]. *)
Definition try_except {A} (body : M A) (handler : exn -> M A) : M A :=
  fun sched w =>
    match body sched w with
    | (Raise e, sched', w') => handler e sched' w'
    | r => r
    end.

(** [try: body / finally: fin].  A body that never returns never reaches
    [fin]; an exception raised by [fin] replaces the outcome of [body]. *)
Definition try_finally {A} (body : M A) (fin : M unit) : M A :=
  fun sched w =>
    match body sched w with
    | (Ok a, sched', w') => (fin ;; mret a) sched' w'
    | (Raise e, sched', w') => (fin ;; raise e) sched' w'
    | r => r
    end.

(** ** The checkpoint (worker side) *)

(** [time.sleep(0.1)]. *)
Definition POLL_INTERVAL : Q := 1 # 10.

(** [while self._paused.is_set(): time.sleep(0.1)].  During each sleep the
    controller issues the requests the schedule gives for it. *)
Fixpoint _pause_wait (sched : schedule) (w : World)
  : result unit * schedule * World :=
  if _paused (self w) then
    match sched with
    | [] => (Blocked, [], w)
    | reqs :: sched' =>
        _pause_wait sched' (apply_requests reqs (emit (Sleep POLL_INTERVAL) w))
    end
  else (Ok tt, sched, w).

Definition _pause : M unit :=
  modify (with_self (assign_paused true)) ;;
  modify (_set_state PAUSED) ;;
  _pause_wait.

Definition maybe_handle_execution_control_request : M unit :=
  w ← get;
  if _state_change_requested (self w) then
    if decide (_state (self w) = Some STOP_REQUESTED) then
      raise StopException
    else if decide (_state (self w) = Some RERUN_REQUESTED) then
      raise RerunException
    else if decide (_state (self w) = Some PAUSE_REQUESTED) then
      _pause
    else mret tt
  else mret tt.

(** ** The worker procedure *)

(** What the module takes from the Python runtime: [ast.parse], [compile]
    and [exec].  A script may do anything a worker can do (call the
    checkpoint through the tracer, raise, write to the sink, issue requests,
    never return), so [exec] is a computation of [M]; it returns the
    namespace as the script leaves it. *)
Class Python := {
  code : Type;
  ast_parse : string -> exn + list stmt;
  compile : string + list stmt -> string -> exn + code;
  exec : code -> namespace -> M namespace;
}.

Section Worker.
Context `{Python}.

(** [_modify_ast(tree_or_code, is_root)]. *)
Definition _modify_ast (tree_or_code : string + list stmt) (is_root : bool)
  : exn + list stmt :=
  match tree_or_code with
  | inl text =>
      match ast_parse text with
      | inl e => inl e
      | inr tree => inr (_modify_tree tree is_root)
      end
  | inr tree => inr (_modify_tree tree is_root)
  end.

Definition _install_tracer : M unit :=
  modify (fun w => if sys_has_settrace w then emit SetTrace w else w).

(** [_run], from its first line to [self._set_state(State.RUNNING)]. *)
Definition _run_startup (tid : nat) : M unit :=
  w ← get;
  if decide (tid = _main_thread_id (self w)) then raise AssertionError
  else if negb (is_fully_stopped w) then
    raise (RuntimeError "Script is already running")
  else
    modify (emit StReset) ;;
    modify (with_self (assign_state_change_requested false)) ;;
    modify (_set_state RUNNING).

(** The same startup in its two parts, for the interleavings in which
    another thread runs between them: the assertion and the test of
    [is_fully_stopped] with its [raise], then the lines from [st._reset()] to
    [self._set_state(State.RUNNING)]. *)
Definition _run_startup_test (tid : nat) : M unit :=
  w ← get;
  if decide (tid = _main_thread_id (self w)) then raise AssertionError
  else if negb (is_fully_stopped w) then
    raise (RuntimeError "Script is already running")
  else mret tt.

Definition _run_startup_commit : M unit :=
  modify (emit StReset) ;;
  modify (with_self (assign_state_change_requested false)) ;;
  modify (_set_state RUNNING).

(** [_run], from [open(...)] to the line before [try]. *)
Definition _run_load : M (string + list stmt) :=
  w ← get;
  let path := script_path (_report (self w)) in
  match files w !! path with
  | None => raise (IOError path)
  | Some text =>
      filebody ←
        (if runner_autoWrite (options w) then
           match _modify_ast (inl text) true with
           | inl e => raise e
           | inr tree => mret (inr tree)
           end
         else mret (inl text));
      (if runner_installTracer (options w) then _install_tracer
       else mret tt) ;;
      mret filebody
  end.

(** [dict(__name__='__main__', __file__=str(self._report.script_path))]. *)
Definition _run_namespace (path : string) : namespace :=
  {[ "__name__" := VStr "__main__"; "__file__" := VStr path ]}.

(** The body of the [try] block. *)
Definition _run_body (filebody : string + list stmt) : M unit :=
  w ← get;
  let path := script_path (_report (self w)) in
  match compile filebody path with
  | inl e => raise e
  | inr c =>
      let ns := _run_namespace path in
      modify (fun w => set_sys_argv (argv (_report (self w))) w) ;;
      exec c ns ;;
      mret tt
  end.

(** The [except] clauses; the result is the local variable [rerun]. *)
Definition _run_except (e : exn) : M bool :=
  match e with
  | RerunException => mret true
  | StopException => mret false
  | _ => modify (emit (StException e)) ;; mret false
  end.

(** [rerun = False], then the [try] statement around [body]. *)
Definition _run_guarded (body : M unit) : M bool :=
  try_finally
    (try_except (body ;; mret false) _run_except)
    (modify (_set_state STOPPED)).

(** One pass of [_run], up to the test of [rerun]. *)
Definition _run_once (tid : nat) : M bool :=
  _run_startup tid ;;
  filebody ← _run_load;
  _run_guarded (_run_body filebody).

(** [_run]: the recursive call [self._run()] consumes one unit of [fuel]. *)
Fixpoint _run (fuel : nat) (tid : nat) {struct fuel} : M unit :=
  rerun ← _run_once tid;
  if rerun : bool then
    match fuel with
    | 0 => out_of_fuel
    | S fuel' => _run fuel' tid
    end
  else mret tt.

End Worker.

(** ** Threads

    The module takes no lock: the controller and the script threads may
    interleave between any two statements.  The relation [step] below lists
    only some of these interleavings, those in which each of the blocks
    above (a request, the startup of [_run], the loading of the file, one
    checkpoint, one poll of the pause loop, the end of the [try] statement)
    runs without another thread in between.  A state reachable by [step] is
    therefore a state the program can reach, while a property of all the
    states reachable by [step] is a property of the program only if it also
    survives the interleavings inside the blocks.  Each block runs with an
    empty schedule: the requests that arrive meanwhile are steps of their
    own.  A thread that [_run] leaves by an exception is dropped from
    [workers]; an exception raised by a checkpoint either reaches the [try]
    statement (a later [step_finish]) or is caught by the script, which
    goes on. *)

Inductive phase :=
| Loading       (* state set to RUNNING, file not read yet *)
| Executing     (* inside the try statement *)
| Waiting       (* inside the loop of _pause *)
| Restarting.   (* past finally, about to call self._run() again *)

(** How the body of the [try] statement may end. *)
Inductive outcome :=
| Returns
| Raises (e : exn).

Definition ends (o : outcome) : M unit :=
  match o with
  | Returns => mret tt
  | Raises e => raise e
  end.

Definition is_spawn (e : event) : bool :=
  match e with
  | SpawnThread => true
  | _ => false
  end.

(** Number of threads started so far. *)
Definition spawned (w : World) : nat := length (filter is_spawn (trace w)).

(** A phase in which the thread holds the role of the worker. *)
Definition is_active (p : phase) : bool :=
  match p with
  | Restarting => false
  | _ => true
  end.

Definition active (ws : list (nat * phase)) : nat :=
  length (filter (fun tp => is_active (snd tp)) ws).

Record System := mkSystem {
  world : World;
  begun : nat;                      (* threads that have entered _run *)
  workers : list (nat * phase);     (* script threads inside _run *)
}.

Section Threads.
Context `{Python}.

Inductive step : System -> System -> Prop :=
(* a request, from any thread *)
| step_request q w b ws :
    step (mkSystem w b ws) (mkSystem (apply_request q w) b ws)
(* a spawned thread enters _run *)
| step_begin_ok tid w b ws w' :
    b < spawned w ->
    _run_startup tid [] w = (Ok tt, [], w') ->
    step (mkSystem w b ws) (mkSystem w' (S b) ((tid, Loading) :: ws))
| step_begin_fail tid w b ws e w' :
    b < spawned w ->
    _run_startup tid [] w = (Raise e, [], w') ->
    step (mkSystem w b ws) (mkSystem w' (S b) ws)
(* the file is read, rewritten if asked, the trace function installed *)
| step_load_ok tid w b ws1 ws2 filebody w' :
    _run_load [] w = (Ok filebody, [], w') ->
    step (mkSystem w b (ws1 ++ (tid, Loading) :: ws2))
         (mkSystem w' b (ws1 ++ (tid, Executing) :: ws2))
| step_load_fail tid w b ws1 ws2 e w' :
    _run_load [] w = (Raise e, [], w') ->
    step (mkSystem w b (ws1 ++ (tid, Loading) :: ws2))
         (mkSystem w' b (ws1 ++ ws2))
(* the script writes to the sink *)
| step_write tid w b ws1 ws2 v :
    step (mkSystem w b (ws1 ++ (tid, Executing) :: ws2))
         (mkSystem (emit (StWrite v) w) b (ws1 ++ (tid, Executing) :: ws2))
(* the trace function calls the checkpoint *)
| step_checkpoint tid w b ws1 ws2 r w' :
    maybe_handle_execution_control_request [] w = (r, [], w') ->
    step (mkSystem w b (ws1 ++ (tid, Executing) :: ws2))
         (mkSystem w' b
            (ws1 ++ (tid, match r with Blocked => Waiting | _ => Executing end)
                 :: ws2))
(* one turn of the loop of _pause *)
| step_poll_sleep tid w b ws1 ws2 :
    _paused (self w) = true ->
    step (mkSystem w b (ws1 ++ (tid, Waiting) :: ws2))
         (mkSystem (emit (Sleep POLL_INTERVAL) w) b
            (ws1 ++ (tid, Waiting) :: ws2))
| step_poll_resume tid w b ws1 ws2 :
    _paused (self w) = false ->
    step (mkSystem w b (ws1 ++ (tid, Waiting) :: ws2))
         (mkSystem w b (ws1 ++ (tid, Executing) :: ws2))
(* the body of the try statement ends: except clauses, then finally *)
| step_finish tid w b ws1 ws2 o rerun w' :
    _run_guarded (ends o) [] w = (Ok rerun, [], w') ->
    step (mkSystem w b (ws1 ++ (tid, Executing) :: ws2))
         (mkSystem w' b
            (ws1 ++ (if rerun : bool then [(tid, Restarting)] else []) ++ ws2))
(* if rerun: self._run() *)
| step_restart_ok tid w b ws1 ws2 w' :
    _run_startup tid [] w = (Ok tt, [], w') ->
    step (mkSystem w b (ws1 ++ (tid, Restarting) :: ws2))
         (mkSystem w' b (ws1 ++ (tid, Loading) :: ws2))
| step_restart_fail tid w b ws1 ws2 e w' :
    _run_startup tid [] w = (Raise e, [], w') ->
    step (mkSystem w b (ws1 ++ (tid, Restarting) :: ws2))
         (mkSystem w' b (ws1 ++ ws2)).

(** The system right after the constructor: no thread yet. *)
Definition boot (w : World) : System := mkSystem w 0 [].

Definition reachable (w0 : World) (sys : System) : Prop :=
  rtc step (boot w0) sys.

End Threads.

(** ** Startups that overlap

    The two parts of the startup of [_run], run by several threads in a
    given order.  [tested] holds the threads that passed the test and have
    not yet reached [_set_state(State.RUNNING)], [running] those that went
    past it. *)

Inductive startup_op :=
| Test (tid : nat)      (* thread tid runs the assertion and the test *)
| Commit (tid : nat).   (* thread tid runs on to _set_state(RUNNING) *)

Record Startups := mkStartups {
  su_world : World;
  tested : list nat;
  running : list nat;
}.

Definition run_startup_op (s : Startups) (op : startup_op) : Startups :=
  match op with
  | Test tid =>
      match _run_startup_test tid [] (su_world s) with
      | (Ok _, _, w') => mkStartups w' (tid :: tested s) (running s)
      | (_, _, w') => mkStartups w' (tested s) (running s)
      end
  | Commit tid =>
      if existsb (Nat.eqb tid) (tested s) then
        match _run_startup_commit [] (su_world s) with
        | (_, _, w') =>
            mkStartups w'
              (filter (fun t => negb (Nat.eqb tid t)) (tested s))
              (tid :: running s)
        end
      else s
  end.

Definition run_startup_ops (ops : list startup_op) (s : Startups) : Startups :=
  foldl run_startup_op s ops.

(** ** A small Python, to run the model on concrete scripts *)

Inductive instr :=
| IWrite (v : pyval)                 (* st.write(v) *)
| IWriteBound (x : string)           (* st.write(int('x' in globals())) *)
| IWriteName (x : string)            (* st.write(x) *)
| IAssign (x : string) (v : pyval)   (* x = v *)
| IRaise (e : exn)                   (* raise e *)
| IRequest (q : request)             (* a call of the request API *)
| IIfNoArgv (i : instr).             (* if not sys.argv: i *)

Fixpoint run_instr (i : instr) (ns : namespace) {struct i} : M namespace :=
  match i with
  | IWrite v => modify (emit (StWrite v)) ;; mret ns
  | IWriteBound x =>
      modify (emit (StWrite (VInt (match ns !! x with
                                     | Some _ => 1
                                     | None => 0
                                     end)))) ;;
      mret ns
  | IWriteName x =>
      match ns !! x with
      | Some v => modify (emit (StWrite v)) ;; mret ns
      | None => raise (PyException "NameError" x)
      end
  | IAssign x v => mret (<[x := v]> ns)
  | IRaise e => raise e
  | IRequest q => modify (apply_request q) ;; mret ns
  | IIfNoArgv i' =>
      w ← get;
      match sys_argv w with
      | [] => run_instr i' ns
      | _ => mret ns
      end
  end.

(** With a trace function installed, the checkpoint runs before each
    instruction. *)
Fixpoint run_instrs (traced : bool) (prog : list instr) (ns : namespace)
  : M namespace :=
  match prog with
  | [] => mret ns
  | i :: rest =>
      (if traced then maybe_handle_execution_control_request else mret tt) ;;
      ns' ← run_instr i ns;
      run_instrs traced rest ns'
  end.

Definition is_settrace (e : event) : bool :=
  match e with
  | SetTrace => true
  | _ => false
  end.

(** The scripts this Python knows, by their text; any other text is
    malformed.  A syntax tree is run as the script whose text is the
    source of its first [OtherStmt]. *)
Definition small_lookup (scripts : gmap string (list instr)) (text : string)
  : exn + list instr :=
  match scripts !! text with
  | Some prog => inr prog
  | None => inl (SyntaxError "invalid syntax")
  end.

Definition small_python (scripts : gmap string (list instr)) : Python := {|
  code := list instr;
  ast_parse text :=
    match small_lookup scripts text with
    | inl e => inl e
    | inr _ => inr [OtherStmt text]
    end;
  compile filebody path :=
    match filebody with
    | inl text => small_lookup scripts text
    | inr tree =>
        match filter (fun n => negb (is_import n)) tree with
        | OtherStmt text :: _ => small_lookup scripts text
        | _ => inr []
        end
    end;
  exec c ns :=
    w ← get;
    run_instrs (existsb is_settrace (trace w)) c ns;
|}.

(** Scripts for the examples below. *)
Definition two_pass_text : string :=
  "st.write('x' in globals()); x = 7; rerun_once(); st.write('end')".

Definition two_pass_script : list instr :=
  [IWriteBound "x";
   IAssign "x" (VInt 7);
   IIfNoArgv (IRequest (RequestRerun ["again"]));
   IWrite (VStr "end")].

Definition stop_text : string := "st.write(1); stop(); st.write(2)".

Definition stop_script : list instr :=
  [IWrite (VInt 1); IRequest RequestStop; IWrite (VInt 2)].

Definition name_text : string := "st.write(__name__); st.write(y)".

Definition name_script : list instr := [IWriteName "__name__"; IWriteName "y"].

Definition demo_scripts : gmap string (list instr) :=
  {[ two_pass_text := two_pass_script;
     stop_text := stop_script;
     name_text := name_script ]}.

Definition demo_python : Python := small_python demo_scripts.

(** A runner built by thread 0 for the script [text] stored in app.py. *)
Definition demo_world (autoWrite : bool) (text : string) : World :=
  __init__ (mkReport "app.py" []) 0 (mkConfig false autoWrite true) true
           {[ "app.py" := text ]}.

Definition outcome_of {A} (x : result A * schedule * World)
  : result A * option State * list event :=
  (x.1.1, _state (self x.2), trace x.2).

(** Sample worlds for the examples below. *)
Definition sample_config : Config := mkConfig false false true.

Definition sample_world (st : State) (paused flag : bool) : World :=
  mkWorld
    (mkScriptRunner (mkReport "app.py" []) (Some st) 0 paused flag false)
    [] [] true ∅ sample_config.

(** ** Notions used in the statements *)

(** The world after [n] sleeps of the pause loop with a silent controller. *)
Definition asleep (n : nat) (w : World) : World :=
  Nat.iter n (emit (Sleep POLL_INTERVAL)) w.

(** A stop, a rerun or a toggle issued while [PAUSED] clears the flag. *)
Definition releases (q : request) : bool :=
  match q with
  | FileChanged => false
  | _ => true
  end.

(** The world as [_pause] leaves it before its loop: pause flag set, state
    [PAUSED]. *)
Definition paused_world (w : World) : World :=
  _set_state PAUSED (with_self (assign_paused true) w).

(** The world as the startup of [_run] leaves it. *)
Definition started (w : World) : World :=
  _set_state RUNNING
    (with_self (assign_state_change_requested false) (emit StReset w)).

(** The world once the file is read and the trace function installed. *)
Definition loaded (w : World) : World :=
  if runner_installTracer (options w) then
    if sys_has_settrace w then emit SetTrace w else w
  else w.

(** A Python whose [exec] hands back an empty namespace whatever the script
    bound. *)
Definition forgetful_exec (c : list instr) (ns : namespace) : M namespace :=
  @exec demo_python c ns ;; mret ∅.

(** The tree of the script made of a docstring and [import os]. *)
Definition doc_import_tree : list stmt :=
  [Expr (Str "doc"); Import [mkAlias "os" None]].

(** The tree of a docstring followed by [x = 1]. *)
Definition doc_assign_tree : list stmt :=
  [Expr (Str "doc"); Assign [Name "x" Store] (OtherExpr "1")].

(** The states notified so far, oldest first. *)
Definition notified (tr : list event) : list State :=
  omap (fun e => match e with StateChanged s => Some s | _ => None end) tr.

(** No script thread is left, none is waiting to start, and the runner is
    not fully stopped. *)
Definition orphaned (sys : System) : Prop :=
  workers sys = [] /\
  begun sys = spawned (world sys) /\
  is_fully_stopped (world sys) = false.

(** The rewriter is on and the script does not parse: the one thread that
    was started died while loading it. *)
Definition malformed_orphan : System :=
  mkSystem (started (request_rerun [] (demo_world true "x = ("))) 1 [].

(** The same system after one more rerun request. *)
Definition malformed_orphan_asked : System :=
  mkSystem
    (apply_request (RequestRerun ["again"])
       (started (request_rerun [] (demo_world true "x = ("))))
    1 [].

(** A run of the script that stops itself. *)
Definition stop_run : result unit * schedule * World :=
  @_run demo_python 1 1 [] (demo_world false stop_text).



Definition two_pass_first : result unit * schedule * World :=
  @_run_body demo_python (inl two_pass_text) []
    (loaded (started (demo_world false two_pass_text))).

(** A runner whose script file does not exist. *)
Definition missing_world : World :=
  __init__ (mkReport "gone.py" []) 0 (mkConfig false false true) true ∅.

(** [type(value) is ast.Call], [type(value) is ast.Str], and a tuple
    literal of one element. *)
Definition is_call (value : expr) : bool :=
  match value with
  | Call _ _ _ => true
  | _ => false
  end.

Definition is_str (value : expr) : bool :=
  match value with
  | Str _ => true
  | _ => false
  end.

Definition is_single_tuple (value : expr) : bool :=
  match value with
  | Tuple [_] => true
  | _ => false
  end.

(** The world after [n] sleeps of the pause loop, each with a file change
    that is not handled. *)
Definition ignoring (n : nat) (w : World) : World :=
  Nat.iter n
    (fun w => emit FileChangeNotHandled (emit (Sleep POLL_INTERVAL) w)) w.

(** The first statement of a body is an import. *)
Definition leading_import (body : list stmt) : bool :=
  match body with
  | node :: _ => is_import node
  | [] => false
  end.

(** A fresh runner on which a rerun was requested twice in a row: two
    threads are started. *)
Definition two_requests : World :=
  request_rerun [] (request_rerun [] (demo_world false stop_text)).

(** A runner that reruns on save, called with one argument. *)
Definition on_save_world (st : State) (paused flag : bool) : World :=
  mkWorld
    (mkScriptRunner (mkReport "app.py" ["-v"]) (Some st) 0 paused flag true)
    [] [] true ∅ (mkConfig true false true).

(** * Properties *)

(** ** Basic facts about the state machine *)

Ltac destruct_world w :=
  let rep := fresh "rep" in
  let st := fresh "st" in
  let mid := fresh "mid" in
  let pa := fresh "pa" in
  let fl := fresh "fl" in
  let ros := fresh "ros" in
  let tr := fresh "tr" in
  let sa := fresh "sa" in
  let hs := fresh "hs" in
  let fs := fresh "fs" in
  let op := fresh "op" in
  destruct w as [[rep st mid pa fl ros] tr sa hs fs op].

Lemma is_fully_stopped_true w :
  is_fully_stopped w = true <->
  _state (self w) = Some INITIAL \/ _state (self w) = Some STOPPED.
Proof.
  unfold is_fully_stopped. rewrite orb_true_iff, !bool_decide_eq_true. tauto.
Qed.

Lemma is_fully_stopped_false w :
  is_fully_stopped w = false <->
  _state (self w) <> Some INITIAL /\ _state (self w) <> Some STOPPED.
Proof.
  unfold is_fully_stopped. rewrite orb_false_iff, !bool_decide_eq_false. tauto.
Qed.

Lemma _set_state_same s w :
  _state (self w) = Some s -> _set_state s w = w.
Proof. intros Hs. unfold _set_state. by rewrite decide_True. Qed.

Lemma _set_state_changed s w :
  _state (self w) <> Some s ->
  _set_state s w
  = emit (StateChanged s) (with_self (assign_state (Some s)) w).
Proof. intros Hs. unfold _set_state. by rewrite decide_False. Qed.

Lemma _set_state_state s w : _state (self (_set_state s w)) = Some s.
Proof. unfold _set_state. by case_decide. Qed.

Lemma _set_state_paused s w :
  _paused (self (_set_state s w)) = _paused (self w).
Proof. unfold _set_state. by case_decide. Qed.

Lemma _set_state_flag s w :
  _state_change_requested (self (_set_state s w))
  = _state_change_requested (self w).
Proof. unfold _set_state. by case_decide. Qed.

Lemma _set_state_report s w :
  _report (self (_set_state s w)) = _report (self w).
Proof. unfold _set_state. by case_decide. Qed.

Lemma _set_state_spawned s w : spawned (_set_state s w) = spawned w.
Proof.
  unfold _set_state, spawned. case_decide; [done|]. simpl.
  by rewrite filter_app, length_app, Nat.add_0_r.
Qed.

Ltac unfold_M :=
  unfold mbind, mret, M_bind, M_ret, get, modify, raise, out_of_fuel in *.

(** [request_rerun], case by case. *)
Lemma request_rerun_cases (new_argv : list string) (w : World) :
  let w' := request_rerun new_argv w in
  argv (_report (self w')) = new_argv /\
  (is_fully_stopped w = true ->
     trace w' = trace w ++ [SpawnThread] /\
     _state (self w') = _state (self w) /\
     _paused (self w') = _paused (self w) /\
     _state_change_requested (self w') = _state_change_requested (self w) /\
     forall tid sched, tid <> _main_thread_id (self w') ->
       exists w'', _run_startup tid sched w' = (Ok tt, sched, w'') /\
                   _state (self w'') = Some RUNNING) /\
  (is_fully_stopped w = false ->
     _state (self w') = Some RERUN_REQUESTED /\
     _paused (self w') = false /\
     _state_change_requested (self w') = true /\
     spawned w' = spawned w /\
     forall argv2, request_rerun argv2 w' = with_self (assign_argv argv2) w') /\
  (_state (self w) = Some RERUN_REQUESTED ->
   _paused (self w) = false ->
   _state_change_requested (self w) = true ->
     w' = with_self (assign_argv new_argv) w).
Proof.
  destruct_world w. simpl.
  split; [| split; [| split]].
  - unfold request_rerun. destruct st as [[]|]; reflexivity.
  - intros Hfs. apply is_fully_stopped_true in Hfs. simpl in Hfs.
    unfold request_rerun.
    destruct Hfs as [-> | ->]; simpl; (repeat split; try reflexivity);
      intros tid sched Htid; unfold _run_startup; unfold_M; simpl;
      (rewrite decide_False by exact Htid); simpl; eexists; split; reflexivity.
  - intros Hfs. apply is_fully_stopped_false in Hfs. simpl in Hfs.
    destruct Hfs as [H1 H2].
    unfold request_rerun.
    destruct st as [[]|]; try congruence; simpl; repeat split; try reflexivity.
    all: try (unfold spawned; simpl; by rewrite filter_app, length_app, Nat.add_0_r).
  - intros -> -> ->. reflexivity.
Qed.

Lemma request_stop_fully_stopped w :
  is_fully_stopped w = true -> request_stop w = w.
Proof. intros Hfs. unfold request_stop. by rewrite Hfs. Qed.

Lemma iter_request_stop_fully_stopped n w :
  is_fully_stopped w = true -> Nat.iter n request_stop w = w.
Proof.
  intros Hfs. induction n as [|n IH]; simpl; [done|].
  rewrite IH. by apply request_stop_fully_stopped.
Qed.

Lemma request_stop_state w :
  is_fully_stopped w = false ->
  _state (self (request_stop w)) = Some STOP_REQUESTED.
Proof.
  intros Hfs. unfold request_stop. rewrite Hfs. simpl.
  by rewrite _set_state_state.
Qed.

(** A request made while fully stopped leaves the state as it is. *)
Lemma apply_request_state_fully_stopped q w :
  is_fully_stopped w = true ->
  _state (self (apply_request q w)) = _state (self w).
Proof.
  intros Hfs. apply is_fully_stopped_true in Hfs.
  destruct_world w. simpl in Hfs.
  destruct Hfs as [-> | ->]; destruct q, ros; reflexivity.
Qed.

Lemma apply_requests_state_fully_stopped qs w :
  is_fully_stopped w = true ->
  _state (self (apply_requests qs w)) = _state (self w).
Proof.
  unfold apply_requests. revert w.
  induction qs as [|q qs IH]; intros w Hfs; simpl; [done|].
  rewrite IH.
  - by apply apply_request_state_fully_stopped.
  - unfold is_fully_stopped.
    rewrite apply_request_state_fully_stopped by done. exact Hfs.
Qed.

(** C5. [request_stop()] on a fully stopped runner changes nothing, however
    many times it is called, and whatever requests the controller made
    before it while the runner was fully stopped (they leave the state as
    it is); otherwise it sets the state to [STOP_REQUESTED], clears the
    pause flag and sets the state-change flag. *)
Theorem request_stop_spec (n : nat) (qs : list request) (w : World) :
  (is_fully_stopped w = true ->
     request_stop w = w /\
     Nat.iter n request_stop w = w /\
     _state (self (apply_requests qs w)) = _state (self w) /\
     request_stop (apply_requests qs w) = apply_requests qs w) /\
  (is_fully_stopped w = false ->
     _state (self (request_stop w)) = Some STOP_REQUESTED /\
     _paused (self (request_stop w)) = false /\
     _state_change_requested (self (request_stop w)) = true).
Proof.
  split.
  - intros Hfs. split; [|split; [|split]].
    + by apply request_stop_fully_stopped.
    + by apply iter_request_stop_fully_stopped.
    + by apply apply_requests_state_fully_stopped.
    + apply request_stop_fully_stopped. unfold is_fully_stopped.
      rewrite apply_requests_state_fully_stopped by done. exact Hfs.
  - intros Hfs. unfold request_stop. rewrite Hfs. simpl.
    by rewrite _set_state_state.
Qed.

Lemma request_stop_spec_witness :
  (request_stop (sample_world STOPPED false false)
     = sample_world STOPPED false false /\
   Nat.iter 3 request_stop (sample_world STOPPED false false)
     = sample_world STOPPED false false /\
   _state (self (apply_requests [RequestPauseUnpause; RequestRerun ["a"]]
                   (sample_world STOPPED false false)))
     = Some STOPPED /\
   request_stop (apply_requests [RequestPauseUnpause; RequestRerun ["a"]]
                   (sample_world STOPPED false false))
     = apply_requests [RequestPauseUnpause; RequestRerun ["a"]]
         (sample_world STOPPED false false)) /\
  _state (self (request_stop (sample_world PAUSED true false)))
    = Some STOP_REQUESTED /\
  _paused (self (request_stop (sample_world PAUSED true false))) = false /\
  _state_change_requested (self (request_stop (sample_world PAUSED true false)))
    = true.
Proof.
  split.
  - apply (request_stop_spec 3 [RequestPauseUnpause; RequestRerun ["a"]]
             (sample_world STOPPED false false)).
    reflexivity.
  - apply (request_stop_spec 0 [] (sample_world PAUSED true false)).
    reflexivity.
Defined.

(** A stop request on a running script sends one notification; a repeated
    one sends none. *)
Lemma request_stop_trace w :
  is_fully_stopped w = false ->
  _state (self w) <> Some STOP_REQUESTED ->
  trace (request_stop w) = trace w ++ [StateChanged STOP_REQUESTED].
Proof.
  intros Hfs Hs. unfold request_stop. rewrite Hfs. simpl.
  by rewrite _set_state_changed.
Qed.

Lemma request_stop_again w :
  _state (self w) = Some STOP_REQUESTED ->
  trace (request_stop w) = trace w /\
  _state (self (request_stop w)) = Some STOP_REQUESTED.
Proof.
  intros Hs. unfold request_stop.
  assert (is_fully_stopped w = false) as ->.
  { apply is_fully_stopped_false. rewrite Hs. split; congruence. }
  simpl. by rewrite _set_state_same.
Qed.

Lemma iter_request_stop_again n w :
  _state (self w) = Some STOP_REQUESTED ->
  trace (Nat.iter n request_stop w) = trace w /\
  _state (self (Nat.iter n request_stop w)) = Some STOP_REQUESTED.
Proof.
  intros Hs. induction n as [|n [IHt IHs]]; simpl; [done|].
  destruct (request_stop_again _ IHs) as [Ht Hs']. split; congruence.
Qed.

(** [_set_state] and repeated stop requests, case by case. *)
Lemma _set_state_cases (new_state : State) (w : World) :
  (_state (self w) = Some new_state -> _set_state new_state w = w) /\
  (_state (self w) <> Some new_state ->
     trace (_set_state new_state w) = trace w ++ [StateChanged new_state] /\
     _state (self (_set_state new_state w)) = Some new_state) /\
  (is_fully_stopped w = false ->
   _state (self w) <> Some STOP_REQUESTED ->
     forall n, trace (Nat.iter (S n) request_stop w)
               = trace w ++ [StateChanged STOP_REQUESTED]) /\
  (_state (self w) = Some STOP_REQUESTED ->
     forall n, trace (Nat.iter n request_stop w) = trace w).
Proof.
  split; [|split; [|split]].
  - apply _set_state_same.
  - intros Hs. rewrite _set_state_changed by done. done.
  - intros Hfs Hs n. rewrite Nat.iter_succ_r.
    assert (_state (self (request_stop w)) = Some STOP_REQUESTED) as Hs'.
    { by apply request_stop_state. }
    destruct (iter_request_stop_again n _ Hs') as [-> _].
    by apply request_stop_trace.
  - intros Hs n. by apply iter_request_stop_again.
Qed.

(** ** The checkpoint *)

Lemma checkpoint_flag_clear sched w :
  _state_change_requested (self w) = false ->
  maybe_handle_execution_control_request sched w = (Ok tt, sched, w).
Proof.
  intros Hf. unfold maybe_handle_execution_control_request. unfold_M.
  by rewrite Hf.
Qed.

Lemma checkpoint_other_state sched w :
  _state (self w) <> Some STOP_REQUESTED ->
  _state (self w) <> Some RERUN_REQUESTED ->
  _state (self w) <> Some PAUSE_REQUESTED ->
  maybe_handle_execution_control_request sched w = (Ok tt, sched, w).
Proof.
  intros H1 H2 H3. unfold maybe_handle_execution_control_request. unfold_M.
  destruct (_state_change_requested (self w)); [|done].
  by rewrite !decide_False.
Qed.

(** C10. When the state-change flag is not set, or the state is none of
    [STOP_REQUESTED], [RERUN_REQUESTED], [PAUSE_REQUESTED], the checkpoint
    returns normally, raises nothing, consumes nothing of the schedule and
    leaves the whole world (state, pause flag, state-change flag, trace)
    as it was. *)
Theorem checkpoint_frame (sched : schedule) (w : World) :
  _state_change_requested (self w) = false \/
  (_state (self w) <> Some STOP_REQUESTED /\
   _state (self w) <> Some RERUN_REQUESTED /\
   _state (self w) <> Some PAUSE_REQUESTED) ->
  maybe_handle_execution_control_request sched w = (Ok tt, sched, w).
Proof.
  intros [Hf | (H1 & H2 & H3)].
  - by apply checkpoint_flag_clear.
  - by apply checkpoint_other_state.
Qed.

Lemma checkpoint_frame_witness :
  maybe_handle_execution_control_request [[RequestStop]]
    (sample_world STOP_REQUESTED false false)
  = (Ok tt, [[RequestStop]], sample_world STOP_REQUESTED false false) /\
  maybe_handle_execution_control_request [] (sample_world RUNNING false true)
  = (Ok tt, [], sample_world RUNNING false true).
Proof.
  split.
  - apply (checkpoint_frame [[RequestStop]]
             (sample_world STOP_REQUESTED false false)).
    left. reflexivity.
  - apply (checkpoint_frame [] (sample_world RUNNING false true)).
    right. repeat split; discriminate.
Defined.

(** The pause loop. *)

Lemma asleep_self n w : self (asleep n w) = self w.
Proof. induction n as [|n IH]; simpl; [done|]. exact IH. Qed.

Lemma asleep_succ n w :
  asleep (S n) w = asleep n (emit (Sleep POLL_INTERVAL) w).
Proof. unfold asleep. by rewrite Nat.iter_succ_r. Qed.

Lemma _pause_wait_not_paused sched w :
  _paused (self w) = false -> _pause_wait sched w = (Ok tt, sched, w).
Proof. intros Hp. destruct sched; simpl; by rewrite Hp. Qed.

(** While the controller stays silent the worker keeps sleeping. *)
Lemma _pause_wait_idle n sched w :
  _paused (self w) = true ->
  _pause_wait (replicate n [] ++ sched) w = _pause_wait sched (asleep n w).
Proof.
  revert w. induction n as [|n IH]; intros w Hp; [done|].
  rewrite asleep_succ. simpl. rewrite Hp. by apply IH.
Qed.

Lemma _pause_wait_blocked n w :
  _paused (self w) = true ->
  _pause_wait (replicate n []) w = (Blocked, [], asleep n w).
Proof.
  intros Hp. rewrite <- (app_nil_r (replicate n [])).
  rewrite _pause_wait_idle by done.
  simpl. by rewrite asleep_self, Hp.
Qed.

(** The worker returns at the first poll that finds the flag cleared. *)
Lemma _pause_wait_released n reqs rest w :
  _paused (self w) = true ->
  _paused (self (apply_requests reqs (asleep (S n) w))) = false ->
  _pause_wait (replicate n [] ++ reqs :: rest) w
  = (Ok tt, rest, apply_requests reqs (asleep (S n) w)).
Proof.
  intros Hp Hq. rewrite _pause_wait_idle by done.
  simpl. rewrite asleep_self, Hp.
  change (emit (Sleep POLL_INTERVAL) (asleep n w)) with (asleep (S n) w).
  by apply _pause_wait_not_paused.
Qed.

(** The loop never raises: it returns with the flag cleared, or the
    schedule ran dry with the flag still set. *)
Lemma _pause_wait_total sched w :
  (exists sched' w', _pause_wait sched w = (Ok tt, sched', w') /\
                     _paused (self w') = false) \/
  (exists w', _pause_wait sched w = (Blocked, [], w') /\
              _paused (self w') = true).
Proof.
  revert w. induction sched as [|reqs sched IH]; intros w; simpl.
  - destruct (_paused (self w)) eqn:Hp; [right | left]; eauto.
  - destruct (_paused (self w)) eqn:Hp; [apply IH | left; eauto].
Qed.

Lemma apply_request_releases q w :
  releases q = true ->
  _state (self w) = Some PAUSED ->
  _paused (self (apply_request q w)) = false.
Proof.
  intros Hq Hs. destruct_world w. simpl in Hs. subst st.
  destruct q; try discriminate; reflexivity.
Qed.

Lemma paused_world_state w : _state (self (paused_world w)) = Some PAUSED.
Proof. apply _set_state_state. Qed.

Lemma paused_world_paused w : _paused (self (paused_world w)) = true.
Proof. unfold paused_world. by rewrite _set_state_paused. Qed.

Lemma _pause_unfold sched w : _pause sched w = _pause_wait sched (paused_world w).
Proof. reflexivity. Qed.

Lemma checkpoint_pause sched w :
  _state_change_requested (self w) = true ->
  _state (self w) = Some PAUSE_REQUESTED ->
  maybe_handle_execution_control_request sched w
  = _pause_wait sched (paused_world w).
Proof.
  intros Hf Hs. unfold maybe_handle_execution_control_request. unfold_M.
  rewrite Hf, Hs. reflexivity.
Qed.

Lemma asleep_trace n w :
  trace (asleep n w) = trace w ++ replicate n (Sleep POLL_INTERVAL).
Proof.
  induction n as [|n IH]; simpl.
  - by rewrite app_nil_r.
  - rewrite IH, <- app_assoc. f_equal.
    symmetry. apply replicate_cons_app.
Qed.

(** No request of the controller clears the state-change flag. *)
Lemma apply_request_flag q w :
  _state_change_requested (self w) = true ->
  _state_change_requested (self (apply_request q w)) = true.
Proof.
  intros Hf. destruct_world w. simpl in Hf. subst fl.
  destruct q, st as [[]|], ros; reflexivity.
Qed.

Lemma checkpoint_stop sched w :
  _state_change_requested (self w) = true ->
  _state (self w) = Some STOP_REQUESTED ->
  maybe_handle_execution_control_request sched w
  = (Raise StopException, sched, w).
Proof.
  intros Hf Hs. unfold maybe_handle_execution_control_request. unfold_M.
  by rewrite Hf, Hs.
Qed.

Lemma checkpoint_rerun sched w :
  _state_change_requested (self w) = true ->
  _state (self w) = Some RERUN_REQUESTED ->
  maybe_handle_execution_control_request sched w
  = (Raise RerunException, sched, w).
Proof.
  intros Hf Hs. unfold maybe_handle_execution_control_request. unfold_M.
  by rewrite Hf, Hs.
Qed.

Lemma checkpoint_pause_blocked n w :
  _state_change_requested (self w) = true ->
  _state (self w) = Some PAUSE_REQUESTED ->
  maybe_handle_execution_control_request (replicate n []) w
  = (Blocked, [], asleep n (paused_world w)).
Proof.
  intros Hf Hs. rewrite checkpoint_pause by done.
  apply _pause_wait_blocked, paused_world_paused.
Qed.

Lemma checkpoint_pause_released n q rest w :
  _state_change_requested (self w) = true ->
  _state (self w) = Some PAUSE_REQUESTED ->
  releases q = true ->
  maybe_handle_execution_control_request (replicate n [] ++ [q] :: rest) w
  = (Ok tt, rest, apply_request q (asleep (S n) (paused_world w))).
Proof.
  intros Hf Hs Hq. rewrite checkpoint_pause by done.
  apply (_pause_wait_released n [q] rest (paused_world w)).
  - apply paused_world_paused.
  - simpl. apply apply_request_releases; [done|].
    change (emit (Sleep POLL_INTERVAL) (asleep n (paused_world w)))
      with (asleep (S n) (paused_world w)).
    rewrite asleep_self. apply paused_world_state.
Qed.

(** C1, as the code has it.  With the state-change flag set, the checkpoint
    acts on the current state and leaves the flag set: on [STOP_REQUESTED]
    it raises [StopException] and on [RERUN_REQUESTED] [RerunException],
    the world unchanged; on [PAUSE_REQUESTED] it sets the pause flag and
    the state [PAUSED], then sleeps [POLL_INTERVAL] at a time for as long as
    the controller is silent, returns normally at the first poll after a
    stop, rerun or toggle request cleared the pause flag, and never
    raises. *)
Theorem checkpoint_spec (sched : schedule) (w : World) :
  _state_change_requested (self w) = true ->
  (_state (self w) = Some STOP_REQUESTED ->
     maybe_handle_execution_control_request sched w
     = (Raise StopException, sched, w)) /\
  (_state (self w) = Some RERUN_REQUESTED ->
     maybe_handle_execution_control_request sched w
     = (Raise RerunException, sched, w)) /\
  (_state (self w) = Some PAUSE_REQUESTED ->
     let wp := paused_world w in
     _state (self wp) = Some PAUSED /\
     _paused (self wp) = true /\
     _state_change_requested (self wp) = true /\
     (forall n,
        maybe_handle_execution_control_request (replicate n []) w
        = (Blocked, [], asleep n wp) /\
        trace (asleep n wp) = trace wp ++ replicate n (Sleep POLL_INTERVAL)) /\
     (forall n q rest, releases q = true ->
        let w' := apply_request q (asleep (S n) wp) in
        maybe_handle_execution_control_request
          (replicate n [] ++ [q] :: rest) w
        = (Ok tt, rest, w') /\
        _paused (self w') = false /\
        _state_change_requested (self w') = true) /\
     (forall e sched' w',
        maybe_handle_execution_control_request sched w
        <> (Raise e, sched', w'))).
Proof.
  intros Hf. split; [|split].
  - intros Hs. by apply checkpoint_stop.
  - intros Hs. by apply checkpoint_rerun.
  - intros Hs wp.
    assert (_state_change_requested (self wp) = true) as Hfp.
    { unfold wp, paused_world. by rewrite _set_state_flag. }
    split; [apply paused_world_state|].
    split; [apply paused_world_paused|].
    split; [exact Hfp|].
    split; [|split].
    + intros n. split; [by apply checkpoint_pause_blocked|apply asleep_trace].
    + intros n q rest Hq w'. split; [by apply checkpoint_pause_released|].
      split.
      * apply apply_request_releases; [done|].
        rewrite asleep_self. apply paused_world_state.
      * apply apply_request_flag. by rewrite asleep_self.
    + intros e sched' w' Heq. rewrite checkpoint_pause in Heq by done.
      destruct (_pause_wait_total sched (paused_world w))
        as [(s1 & w1 & H1 & _) | (w1 & H1 & _)]; congruence.
Qed.

Lemma checkpoint_spec_witness :
  maybe_handle_execution_control_request []
    (sample_world STOP_REQUESTED false true)
  = (Raise StopException, [], sample_world STOP_REQUESTED false true) /\
  maybe_handle_execution_control_request []
    (sample_world RERUN_REQUESTED false true)
  = (Raise RerunException, [], sample_world RERUN_REQUESTED false true) /\
  maybe_handle_execution_control_request
    (replicate 2 [] ++ [RequestPauseUnpause] :: [])
    (sample_world PAUSE_REQUESTED false true)
  = (Ok tt, [],
     apply_request RequestPauseUnpause
       (asleep 3 (paused_world (sample_world PAUSE_REQUESTED false true)))).
Proof.
  split; [|split].
  - apply (checkpoint_spec [] (sample_world STOP_REQUESTED false true));
      reflexivity.
  - apply (checkpoint_spec [] (sample_world RERUN_REQUESTED false true));
      reflexivity.
  - apply (checkpoint_spec [] (sample_world PAUSE_REQUESTED false true));
      reflexivity.
Defined.

(** C1 as stated fails: on a runner with the flag set and a stop pending the
    checkpoint raises [StopException] and the flag is still set. *)
Lemma checkpoint_leaves_flag_set :
  _state_change_requested (self (sample_world STOP_REQUESTED false true))
    = true /\
  maybe_handle_execution_control_request []
    (sample_world STOP_REQUESTED false true)
  = (Raise StopException, [], sample_world STOP_REQUESTED false true) /\
  _state_change_requested (self (sample_world STOP_REQUESTED false true))
    <> false.
Proof. split; [reflexivity|]. split; [reflexivity|discriminate]. Qed.

(** ** Pause and resume *)

Lemma request_pause_unpause_running w :
  _state (self w) = Some RUNNING ->
  _state (self (request_pause_unpause w)) = Some PAUSE_REQUESTED /\
  _state_change_requested (self (request_pause_unpause w)) = true /\
  _paused (self (request_pause_unpause w)) = _paused (self w) /\
  trace (request_pause_unpause w) = trace w ++ [StateChanged PAUSE_REQUESTED].
Proof.
  intros Hs. destruct_world w. simpl in Hs. subst st. by repeat split.
Qed.

Lemma request_pause_unpause_paused w :
  _state (self w) = Some PAUSED ->
  _state (self (request_pause_unpause w)) = Some RUNNING /\
  _paused (self (request_pause_unpause w)) = false /\
  _state_change_requested (self (request_pause_unpause w))
    = _state_change_requested (self w) /\
  trace (request_pause_unpause w) = trace w ++ [StateChanged RUNNING].
Proof.
  intros Hs. destruct_world w. simpl in Hs. subst st. by repeat split.
Qed.

Lemma request_pause_unpause_fully_stopped w :
  is_fully_stopped w = true -> request_pause_unpause w = w.
Proof.
  intros Hfs. apply is_fully_stopped_true in Hfs.
  destruct_world w. simpl in Hfs. by destruct Hfs as [-> | ->].
Qed.

(** C6. A toggle on a [RUNNING] script sets the state to [PAUSE_REQUESTED]
    and the state-change flag; the next checkpoint moves to [PAUSED] and
    stays blocked while the controller is silent; a second toggle, arriving
    during any later sleep, sets the state back to [RUNNING] with the pause
    flag cleared, and the checkpoint returns normally to its caller, after
    which a further checkpoint does nothing.  A toggle on a [PAUSED] runner
    sends the single notification [RUNNING]; on a fully stopped runner it
    does nothing. *)
Theorem pause_resume_round_trip (w wp w0 : World) :
  (_state (self w) = Some RUNNING ->
     let w1 := request_pause_unpause w in
     let w2 := paused_world w1 in
     _state (self w1) = Some PAUSE_REQUESTED /\
     _state_change_requested (self w1) = true /\
     _state (self w2) = Some PAUSED /\
     (forall n,
        maybe_handle_execution_control_request (replicate n []) w1
        = (Blocked, [], asleep n w2)) /\
     (forall n rest,
        let w3 := request_pause_unpause (asleep (S n) w2) in
        maybe_handle_execution_control_request
          (replicate n [] ++ [RequestPauseUnpause] :: rest) w1
        = (Ok tt, rest, w3) /\
        _state (self w3) = Some RUNNING /\
        _paused (self w3) = false /\
        maybe_handle_execution_control_request rest w3 = (Ok tt, rest, w3))) /\
  (_state (self wp) = Some PAUSED ->
     _state (self (request_pause_unpause wp)) = Some RUNNING /\
     _paused (self (request_pause_unpause wp)) = false /\
     _state_change_requested (self (request_pause_unpause wp))
       = _state_change_requested (self wp) /\
     trace (request_pause_unpause wp) = trace wp ++ [StateChanged RUNNING]) /\
  (is_fully_stopped w0 = true -> request_pause_unpause w0 = w0).
Proof.
  split; [|split].
  - intros Hs w1 w2.
    destruct (request_pause_unpause_running w Hs) as (Hs1 & Hf1 & _ & _).
    fold w1 in Hs1, Hf1.
    split; [exact Hs1|]. split; [exact Hf1|].
    split; [apply paused_world_state|].
    split.
    + intros n. by apply checkpoint_pause_blocked.
    + intros n rest w3.
      assert (_state (self (asleep (S n) w2)) = Some PAUSED) as Hs2.
      { rewrite asleep_self. apply paused_world_state. }
      destruct (request_pause_unpause_paused _ Hs2) as (Hs3 & Hp3 & _ & _).
      fold w3 in Hs3, Hp3.
      split.
      { by apply (checkpoint_pause_released n RequestPauseUnpause rest w1). }
      split; [exact Hs3|]. split; [exact Hp3|].
      apply checkpoint_other_state; rewrite Hs3; discriminate.
  - apply request_pause_unpause_paused.
  - apply request_pause_unpause_fully_stopped.
Qed.

Lemma pause_resume_round_trip_witness :
  _state (self (request_pause_unpause (sample_world RUNNING false false)))
    = Some PAUSE_REQUESTED /\
  _state (self (request_pause_unpause (sample_world PAUSED true true)))
    = Some RUNNING /\
  request_pause_unpause (sample_world STOPPED false false)
    = sample_world STOPPED false false.
Proof.
  split; [|split].
  - apply (pause_resume_round_trip (sample_world RUNNING false false)
             (sample_world PAUSED true true)
             (sample_world STOPPED false false)).
    reflexivity.
  - apply (pause_resume_round_trip (sample_world RUNNING false false)
             (sample_world PAUSED true true)
             (sample_world STOPPED false false)).
    reflexivity.
  - apply (pause_resume_round_trip (sample_world RUNNING false false)
             (sample_world PAUSED true true)
             (sample_world STOPPED false false)).
    reflexivity.
Defined.

(** A run of the round trip: the toggle arrives during the third sleep. *)
Example pause_resume_trace :
  let w1 := request_pause_unpause (sample_world RUNNING false false) in
  match maybe_handle_execution_control_request
          [[]; []; [RequestPauseUnpause]; [RequestStop]] w1 with
  | (r, rest, w3) =>
      r = Ok tt /\ rest = [[RequestStop]] /\
      _state (self w3) = Some RUNNING /\
      trace w3 = [StateChanged PAUSE_REQUESTED; StateChanged PAUSED;
                  Sleep POLL_INTERVAL; Sleep POLL_INTERVAL;
                  Sleep POLL_INTERVAL; StateChanged RUNNING]
  end.
Proof. vm_compute. by repeat split. Qed.

(** ** The worker procedure *)

Lemma started_state w : _state (self (started w)) = Some RUNNING.
Proof. apply _set_state_state. Qed.

Lemma started_trace w :
  is_fully_stopped w = true ->
  trace (started w) = trace w ++ [StReset; StateChanged RUNNING].
Proof.
  intros Hfs. apply is_fully_stopped_true in Hfs. unfold started.
  rewrite _set_state_changed.
  - simpl. by rewrite <- app_assoc.
  - simpl. destruct Hfs as [-> | ->]; discriminate.
Qed.

Lemma started_files w : files (started w) = files w.
Proof. unfold started, _set_state. by case_decide. Qed.

Lemma started_options w : options (started w) = options w.
Proof. unfold started, _set_state. by case_decide. Qed.

Lemma started_report w : _report (self (started w)) = _report (self w).
Proof. unfold started. by rewrite _set_state_report. Qed.

Lemma _run_startup_ok tid sched w :
  tid <> _main_thread_id (self w) ->
  is_fully_stopped w = true ->
  _run_startup tid sched w = (Ok tt, sched, started w).
Proof.
  intros Htid Hfs. unfold _run_startup. unfold_M.
  rewrite decide_False by done. by rewrite Hfs.
Qed.






Lemma _run_guarded_rerun body sched w sched' w' :
  body sched w = (Raise RerunException, sched', w') ->
  _run_guarded body sched w = (Ok true, sched', _set_state STOPPED w').
Proof.
  intros Hb. unfold _run_guarded, try_finally, try_except. unfold_M.
  by rewrite Hb.
Qed.

Lemma _run_guarded_failure body sched w e sched' w' :
  body sched w = (Raise e, sched', w') ->
  e <> StopException -> e <> RerunException ->
  _run_guarded body sched w
  = (Ok false, sched', _set_state STOPPED (emit (StException e) w')).
Proof.
  intros Hb H1 H2. unfold _run_guarded, try_finally, try_except. unfold_M.
  rewrite Hb. by destruct e.
Qed.

(** Whenever the [try] statement is left, the state is [STOPPED] and no
    exception escapes. *)
Lemma _run_guarded_stopped body sched w r sched' w' :
  _run_guarded body sched w = (r, sched', w') ->
  (exists rerun, r = Ok rerun /\ _state (self w') = Some STOPPED) \/
  ((r = Blocked \/ r = OutOfFuel) /\ exists u, body sched w = (u, sched', w')).
Proof.
  unfold _run_guarded, try_finally, try_except. unfold_M.
  destruct (body sched w) as [[[[]|e| |] s1] w1] eqn:Hb.
  - intros [= <- <- <-]. left. eexists. split; [done|apply _set_state_state].
  - destruct e; simpl; intros [= <- <- <-]; left; eexists;
      (split; [done|apply _set_state_state]).
  - intros [= <- <- <-]. right. eauto.
  - intros [= <- <- <-]. right. eauto.
Qed.

Lemma loaded_self w : self (loaded w) = self w.
Proof.
  unfold loaded.
  by destruct (runner_installTracer (options w)), (sys_has_settrace w).
Qed.

Section RunProperties.
Context `{Python}.

Lemma _run_load_missing sched w :
  files w !! script_path (_report (self w)) = None ->
  _run_load sched w
  = (Raise (IOError (script_path (_report (self w)))), sched, w).
Proof. intros Hf. unfold _run_load. unfold_M. by rewrite Hf. Qed.

Lemma _run_load_malformed sched w text e :
  files w !! script_path (_report (self w)) = Some text ->
  runner_autoWrite (options w) = true ->
  ast_parse text = inl e ->
  _run_load sched w = (Raise e, sched, w).
Proof.
  intros Hf Ha Hp. unfold _run_load, _modify_ast. unfold_M.
  by rewrite Hf, Ha, Hp.
Qed.

Lemma _run_load_rewritten sched w text tree :
  files w !! script_path (_report (self w)) = Some text ->
  runner_autoWrite (options w) = true ->
  ast_parse text = inr tree ->
  _run_load sched w = (Ok (inr (_modify_tree tree true)), sched, loaded w).
Proof.
  intros Hf Ha Hp. unfold _run_load, _modify_ast, _install_tracer, loaded.
  unfold_M. rewrite Hf, Ha, Hp.
  by destruct (runner_installTracer (options w)).
Qed.

Lemma _run_load_plain sched w text :
  files w !! script_path (_report (self w)) = Some text ->
  runner_autoWrite (options w) = false ->
  _run_load sched w = (Ok (inl text), sched, loaded w).
Proof.
  intros Hf Ha. unfold _run_load, _install_tracer, loaded.
  unfold_M. rewrite Hf, Ha.
  by destruct (runner_installTracer (options w)).
Qed.

Lemma _run_body_compile_error filebody sched w e :
  compile filebody (script_path (_report (self w))) = inl e ->
  _run_body filebody sched w = (Raise e, sched, w).
Proof. intros Hc. unfold _run_body. unfold_M. by rewrite Hc. Qed.

Lemma _run_once_unfold tid sched w :
  _run_once tid sched w
  = match _run_startup tid sched w with
    | (Ok _, s1, w1) =>
        match _run_load s1 w1 with
        | (Ok filebody, s2, w2) => _run_guarded (_run_body filebody) s2 w2
        | (Raise e, s2, w2) => (Raise e, s2, w2)
        | (Blocked, s2, w2) => (Blocked, s2, w2)
        | (OutOfFuel, s2, w2) => (OutOfFuel, s2, w2)
        end
    | (Raise e, s1, w1) => (Raise e, s1, w1)
    | (Blocked, s1, w1) => (Blocked, s1, w1)
    | (OutOfFuel, s1, w1) => (OutOfFuel, s1, w1)
    end.
Proof.
  unfold _run_once. unfold mbind at 1 2. unfold M_bind.
  destruct (_run_startup tid sched w) as [[[] s1] w1]; reflexivity.
Qed.

Lemma _run_unfold fuel tid sched w :
  _run fuel tid sched w
  = match _run_once tid sched w with
    | (Ok true, s1, w1) =>
        match fuel with
        | 0 => (OutOfFuel, s1, w1)
        | S fuel' => _run fuel' tid s1 w1
        end
    | (Ok false, s1, w1) => (Ok tt, s1, w1)
    | (Raise e, s1, w1) => (Raise e, s1, w1)
    | (Blocked, s1, w1) => (Blocked, s1, w1)
    | (OutOfFuel, s1, w1) => (OutOfFuel, s1, w1)
    end.
Proof.
  destruct fuel; simpl; unfold mbind at 1; unfold M_bind;
    destruct (_run_once tid sched w) as [[[[]| | |] s1] w1]; reflexivity.
Qed.


(** C3, where the code departs from it.  With [runner.autoWrite] on, a
    script that [ast.parse] rejects makes [_modify_ast] raise before the
    [try] statement is entered: the exception leaves [_run], nothing is
    sent to the sink, and the state stays [RUNNING] instead of becoming
    [STOPPED]. *)
Theorem _run_malformed_script_escapes
    (fuel tid : nat) (sched : schedule) (w : World) (text : string) (e : exn) :
  tid <> _main_thread_id (self w) ->
  is_fully_stopped w = true ->
  files w !! script_path (_report (self w)) = Some text ->
  runner_autoWrite (options w) = true ->
  ast_parse text = inl e ->
  _run fuel tid sched w = (Raise e, sched, started w) /\
  _state (self (started w)) = Some RUNNING /\
  trace (started w) = trace w ++ [StReset; StateChanged RUNNING].
Proof.
  intros Htid Hfs Hf Ha Hp. split; [|split].
  - rewrite _run_unfold, _run_once_unfold.
    rewrite _run_startup_ok by done.
    rewrite (_run_load_malformed sched (started w) text e); [done| | |done].
    + by rewrite started_files, started_report.
    + by rewrite started_options.
  - apply started_state.
  - by apply started_trace.
Qed.

(** The same script with the rewriter disabled: the error is caught. *)
Lemma _run_compile_error_reported fuel tid sched w text e :
  tid <> _main_thread_id (self w) ->
  is_fully_stopped w = true ->
  files w !! script_path (_report (self w)) = Some text ->
  runner_autoWrite (options w) = false ->
  compile (inl text) (script_path (_report (self w))) = inl e ->
  e <> StopException -> e <> RerunException ->
  let w' := _set_state STOPPED (emit (StException e) (loaded (started w))) in
  _run fuel tid sched w = (Ok tt, sched, w') /\
  _state (self w') = Some STOPPED /\
  trace w' = trace (loaded (started w))
             ++ [StException e; StateChanged STOPPED].
Proof.
  intros Htid Hfs Hf Ha Hc He1 He2 w'. split; [|split].
  - rewrite _run_unfold, _run_once_unfold.
    rewrite _run_startup_ok by done.
    rewrite (_run_load_plain sched (started w) text).
    + rewrite (_run_guarded_failure _ sched (loaded (started w)) e
                 sched (loaded (started w))); [done| |done|done].
      apply _run_body_compile_error.
      by rewrite loaded_self, started_report.
    + by rewrite started_files, started_report.
    + by rewrite started_options.
  - apply _set_state_state.
  - unfold w'. rewrite _set_state_changed.
    + simpl. by rewrite <- app_assoc.
    + simpl. rewrite loaded_self, started_state. discriminate.
Qed.

End RunProperties.

Lemma bind_unfold {A B} (m : M A) (k : A -> M B) sched w :
  (m ≫= k) sched w
  = match m sched w with
    | (Ok a, sched', w') => k a sched' w'
    | (Raise e, sched', w') => (Raise e, sched', w')
    | (Blocked, sched', w') => (Blocked, sched', w')
    | (OutOfFuel, sched', w') => (OutOfFuel, sched', w')
    end.
Proof. reflexivity. Qed.

Lemma bind_get {B} (k : World -> M B) sched w :
  (get ≫= k) sched w = k w sched w.
Proof. reflexivity. Qed.

Lemma bind_modify {B} (f : World -> World) (k : unit -> M B) sched w :
  (modify f ≫= k) sched w = k tt sched (f w).
Proof. reflexivity. Qed.

Section RunOutcomes.
Context `{Python}.

Lemma _run_body_unfold filebody sched w :
  _run_body filebody sched w
  = match compile filebody (script_path (_report (self w))) with
    | inl e => (Raise e, sched, w)
    | inr c =>
        (exec c (_run_namespace (script_path (_report (self w)))) ;; mret tt)
          sched (set_sys_argv (argv (_report (self w))) w)
    end.
Proof.
  unfold _run_body. rewrite bind_get.
  destruct (compile filebody (script_path (_report (self w)))); [done|].
  by rewrite bind_modify.
Qed.

Lemma _run_once_guarded tid sched w filebody w1 :
  tid <> _main_thread_id (self w) ->
  is_fully_stopped w = true ->
  _run_load sched (started w) = (Ok filebody, sched, w1) ->
  _run_once tid sched w = _run_guarded (_run_body filebody) sched w1.
Proof.
  intros Htid Hfs Hl. rewrite _run_once_unfold.
  rewrite _run_startup_ok by done. by rewrite Hl.
Qed.

Section OnePass.
Variables (fuel tid : nat) (sched : schedule) (w : World).
Variables (filebody : string + list stmt) (w1 : World).
Hypothesis Htid : tid <> _main_thread_id (self w).
Hypothesis Hfs : is_fully_stopped w = true.
Hypothesis Hload : _run_load sched (started w) = (Ok filebody, sched, w1).




(** [Rerun] is caught, the state becomes [STOPPED], and the same thread
    calls [_run] again; the startup of that call goes through. *)
Lemma _run_rerun_restarts sched' w' :
  _run_body filebody sched w1 = (Raise RerunException, sched', w') ->
  let w2 := _set_state STOPPED w' in
  _run (S fuel) tid sched w = _run fuel tid sched' w2 /\
  is_fully_stopped w2 = true /\
  (tid <> _main_thread_id (self w2) ->
   _run_startup tid sched' w2 = (Ok tt, sched', started w2)).
Proof.
  intros Hb w2. split; [|split].
  - rewrite _run_unfold, (_run_once_guarded _ _ _ filebody w1) by done.
    by rewrite (_run_guarded_rerun _ _ _ sched' w').
  - apply is_fully_stopped_true. right. apply _set_state_state.
  - intros Htid2. apply _run_startup_ok; [done|].
    apply is_fully_stopped_true. right. apply _set_state_state.
Qed.

End OnePass.

(** A call of [_run] that returns leaves the state [STOPPED]. *)
Lemma _run_returns_stopped fuel tid sched w sched' w' :
  _run fuel tid sched w = (Ok tt, sched', w') ->
  _state (self w') = Some STOPPED.
Proof.
  revert sched w. induction fuel as [|fuel IH]; intros sched w;
    rewrite _run_unfold, _run_once_unfold;
    destruct (_run_startup tid sched w) as [[[[]|e| |] s1] w1]; try discriminate;
    destruct (_run_load s1 w1) as [[[fb|e| |] s2] w2]; try discriminate;
    destruct (_run_guarded (_run_body fb) s2 w2) as [[r s3] w3] eqn:Hg;
    destruct (_run_guarded_stopped _ _ _ _ _ _ Hg)
      as [(rerun & -> & Hs) | ([-> | ->] & _)]; try discriminate.
  - destruct rerun; [discriminate|]. by intros [= <- <-].
  - destruct rerun; [apply IH|]. by intros [= <- <-].
Qed.

End RunOutcomes.

(** ** The namespace of a run *)

Lemma _run_namespace_lookup path k :
  _run_namespace path !! k
  = if decide (k = "__name__") then Some (VStr "__main__")
    else if decide (k = "__file__") then Some (VStr path)
    else None.
Proof.
  unfold _run_namespace.
  destruct (decide (k = "__name__")) as [-> | H1]; [done|].
  rewrite lookup_insert_ne by done.
  destruct (decide (k = "__file__")) as [-> | H2].
  - apply lookup_singleton_eq.
  - by apply lookup_singleton_ne.
Qed.

Section Namespaces.
Variables (code0 : Type).
Variables (parse : string -> exn + list stmt).
Variables (comp : string + list stmt -> string -> exn + code0).
Variables (exec1 exec2 : code0 -> namespace -> M namespace).

Let py1 : Python := Build_Python code0 parse comp exec1.
Let py2 : Python := Build_Python code0 parse comp exec2.

Hypothesis same_from_fresh :
  forall c path sched w,
    (exec1 c (_run_namespace path) ;; mret tt) sched w
    = (exec2 c (_run_namespace path) ;; mret tt) sched w.

Lemma _run_body_same filebody sched w :
  @_run_body py1 filebody sched w = @_run_body py2 filebody sched w.
Proof.
  rewrite !_run_body_unfold. simpl.
  destruct (comp filebody (script_path (_report (self w)))) as [e|c]; [done|].
  apply same_from_fresh.
Qed.

Lemma _run_guarded_same (b1 b2 : M unit) :
  (forall sched w, b1 sched w = b2 sched w) ->
  forall sched w, _run_guarded b1 sched w = _run_guarded b2 sched w.
Proof.
  intros Hb sched w. unfold _run_guarded, try_finally, try_except.
  by rewrite (bind_unfold b1), (bind_unfold b2), Hb.
Qed.

Lemma _run_once_same tid sched w :
  @_run_once py1 tid sched w = @_run_once py2 tid sched w.
Proof.
  rewrite !_run_once_unfold.
  destruct (_run_startup tid sched w) as [[[] s1] w1]; try done.
  change (@_run_load py2 s1 w1) with (@_run_load py1 s1 w1).
  destruct (@_run_load py1 s1 w1) as [[[] s2] w2]; try done.
  apply _run_guarded_same. apply _run_body_same.
Qed.

Lemma _run_same fuel tid sched w :
  @_run py1 fuel tid sched w = @_run py2 fuel tid sched w.
Proof.
  revert sched w. induction fuel as [|fuel IH]; intros sched w;
    rewrite !_run_unfold, _run_once_same;
    destruct (@_run_once py2 tid sched w) as [[[[]| | |] s1] w1]; done.
Qed.

End Namespaces.

(** C8 as stated fails: the namespace handed to the script is not empty, it
    binds [__name__] and [__file__]. *)
Lemma _run_namespace_not_empty :
  _run_namespace "app.py" !! "__name__" = Some (VStr "__main__") /\
  _run_namespace "app.py" !! "__file__" = Some (VStr "app.py") /\
  _run_namespace "app.py" <> ∅.
Proof.
  split; [reflexivity|]. split; [reflexivity|].
  intros Heq. apply (f_equal (fun m : namespace => m !! "__name__")) in Heq.
  rewrite lookup_empty in Heq. discriminate.
Qed.

(** C8, as the code has it.  The namespace of a pass binds exactly
    [__name__] to ['__main__'] and [__file__] to the script path; every
    pass hands [exec] that namespace, built anew; and a call of [_run],
    reruns included, depends on the script only through what it does when
    started in that namespace: neither the namespace a pass leaves behind
    nor the behaviour of the script in any other namespace matters. *)
Theorem fresh_namespace_per_run
    (code0 : Type) (parse : string -> exn + list stmt)
    (comp : string + list stmt -> string -> exn + code0)
    (exec1 exec2 : code0 -> namespace -> M namespace) :
  (forall path k,
     _run_namespace path !! k
     = if decide (k = "__name__") then Some (VStr "__main__")
       else if decide (k = "__file__") then Some (VStr path)
       else None) /\
  (forall filebody sched w c,
     comp filebody (script_path (_report (self w))) = inr c ->
     @_run_body (Build_Python code0 parse comp exec1) filebody sched w
     = (exec1 c (_run_namespace (script_path (_report (self w)))) ;; mret tt)
         sched (set_sys_argv (argv (_report (self w))) w)) /\
  ((forall c path sched w,
      (exec1 c (_run_namespace path) ;; mret tt) sched w
      = (exec2 c (_run_namespace path) ;; mret tt) sched w) ->
   forall fuel tid sched w,
     @_run (Build_Python code0 parse comp exec1) fuel tid sched w
     = @_run (Build_Python code0 parse comp exec2) fuel tid sched w).
Proof.
  split; [|split].
  - apply _run_namespace_lookup.
  - intros filebody sched w c Hc. rewrite _run_body_unfold. simpl.
    by rewrite Hc.
  - intros Hsame fuel tid sched w. by apply _run_same.
Qed.

Lemma fresh_namespace_per_run_witness :
  @_run_body demo_python (inl two_pass_text) [] (demo_world false two_pass_text)
  = (@exec demo_python two_pass_script (_run_namespace "app.py") ;; mret tt)
      [] (set_sys_argv [] (demo_world false two_pass_text)) /\
  @_run demo_python 1 1 [] (demo_world false two_pass_text)
  = @_run (Build_Python (list instr) (@ast_parse demo_python)
             (@compile demo_python) forgetful_exec)
      1 1 [] (demo_world false two_pass_text).
Proof.
  split.
  - apply (fresh_namespace_per_run (list instr) (@ast_parse demo_python)
             (@compile demo_python) (@exec demo_python) forgetful_exec).
    vm_compute. reflexivity.
  - apply (fresh_namespace_per_run (list instr) (@ast_parse demo_python)
             (@compile demo_python) (@exec demo_python) forgetful_exec).
    intros c path sched w. unfold forgetful_exec.
    rewrite !bind_unfold.
    destruct (@exec demo_python c (_run_namespace path) sched w)
      as [[[] ?] ?]; reflexivity.
Defined.

(** ** Runs of the sample scripts *)

Lemma _run_malformed_script_escapes_witness :
  @_run demo_python 1 1 [] (demo_world true "x = (")
  = (Raise (SyntaxError "invalid syntax"), [],
     started (demo_world true "x = (")) /\
  _state (self (started (demo_world true "x = ("))) = Some RUNNING /\
  trace (started (demo_world true "x = ("))
  = trace (demo_world true "x = (") ++ [StReset; StateChanged RUNNING].
Proof.
  apply (@_run_malformed_script_escapes demo_python 1 1 []
           (demo_world true "x = (") "x = (" (SyntaxError "invalid syntax")).
  - vm_compute. discriminate.
  - reflexivity.
  - vm_compute. reflexivity.
  - reflexivity.
  - vm_compute. reflexivity.
Defined.

(** The same malformed script, rewriter off and rewriter on. *)
Example malformed_script_rewriter_off :
  outcome_of (@_run demo_python 1 1 [] (demo_world false "x = ("))
  = (Ok tt, Some STOPPED,
     [StateChanged INITIAL; StReset; StateChanged RUNNING; SetTrace;
      StException (SyntaxError "invalid syntax"); StateChanged STOPPED]).
Proof. vm_compute. reflexivity. Qed.

Example malformed_script_rewriter_on :
  outcome_of (@_run demo_python 1 1 [] (demo_world true "x = ("))
  = (Raise (SyntaxError "invalid syntax"), Some RUNNING,
     [StateChanged INITIAL; StReset; StateChanged RUNNING]).
Proof. vm_compute. reflexivity. Qed.

(** A script that asks for a rerun of itself: the rest of the first pass is
    skipped, the second pass starts from the first statement with the new
    arguments, and [x], bound by the first pass, is unbound again. *)
Example rerun_two_passes :
  outcome_of (@_run demo_python 1 1 [] (demo_world false two_pass_text))
  = (Ok tt, Some STOPPED,
     [StateChanged INITIAL; StReset; StateChanged RUNNING; SetTrace;
      StWrite (VInt 0); StateChanged RERUN_REQUESTED;
      StateChanged STOPPED; StReset; StateChanged RUNNING; SetTrace;
      StWrite (VInt 0); StWrite (VStr "end"); StateChanged STOPPED]).
Proof. vm_compute. reflexivity. Qed.

Example stop_is_silent :
  outcome_of (@_run demo_python 1 1 [] (demo_world false stop_text))
  = (Ok tt, Some STOPPED,
     [StateChanged INITIAL; StReset; StateChanged RUNNING; SetTrace;
      StWrite (VInt 1); StateChanged STOP_REQUESTED; StateChanged STOPPED]).
Proof. vm_compute. reflexivity. Qed.

Example script_reads_name :
  outcome_of (@_run demo_python 1 1 [] (demo_world false name_text))
  = (Ok tt, Some STOPPED,
     [StateChanged INITIAL; StReset; StateChanged RUNNING; SetTrace;
      StWrite (VStr "__main__"); StException (PyException "NameError" "y");
      StateChanged STOPPED]).
Proof. vm_compute. reflexivity. Qed.

(** ** Starting a worker *)

Lemma spawned_emit e w :
  spawned (emit e w) = if is_spawn e then S (spawned w) else spawned w.
Proof.
  unfold spawned. simpl. rewrite filter_app, length_app.
  destruct e; simpl; lia.
Qed.

Lemma spawned_with_self f w : spawned (with_self f w) = spawned w.
Proof. reflexivity. Qed.

Lemma request_rerun_spawned new_argv w :
  spawned (request_rerun new_argv w)
  = if is_fully_stopped w then S (spawned w) else spawned w.
Proof.
  unfold request_rerun.
  change (is_fully_stopped (with_self (assign_argv new_argv) w))
    with (is_fully_stopped w).
  destruct (is_fully_stopped w).
  - unfold spawn_script_thread. by rewrite spawned_emit.
  - by rewrite !spawned_with_self, _set_state_spawned.
Qed.

Lemma request_stop_spawned w : spawned (request_stop w) = spawned w.
Proof.
  unfold request_stop. destruct (is_fully_stopped w); [done|].
  by rewrite !spawned_with_self, _set_state_spawned.
Qed.

Lemma request_pause_unpause_spawned w :
  spawned (request_pause_unpause w) = spawned w.
Proof.
  unfold request_pause_unpause, _request_pause. case_decide.
  - by rewrite spawned_with_self, _set_state_spawned.
  - destruct (is_fully_stopped w); [done|].
    by rewrite spawned_with_self, _set_state_spawned.
Qed.

(** Only a request made while fully stopped starts a thread. *)
Lemma apply_request_spawned q w :
  spawned (apply_request q w) <> spawned w -> is_fully_stopped w = true.
Proof.
  destruct q; simpl.
  - rewrite request_rerun_spawned. by destruct (is_fully_stopped w).
  - by rewrite request_stop_spawned.
  - by rewrite request_pause_unpause_spawned.
  - unfold maybe_handle_file_changed. destruct (run_on_save (self w)).
    + rewrite request_rerun_spawned. by destruct (is_fully_stopped w).
    + by rewrite spawned_emit.
Qed.

(** No request moves the runner into or out of the fully stopped states. *)
Lemma apply_request_fully_stopped q w :
  is_fully_stopped (apply_request q w) = is_fully_stopped w.
Proof. destruct_world w. destruct q, st as [[]|], ros; reflexivity. Qed.

Lemma checkpoint_fully_stopped sched w r sched' w' :
  maybe_handle_execution_control_request sched w = (r, sched', w') ->
  is_fully_stopped w = false -> is_fully_stopped w' = false.
Proof.
  intros Hc Hfs.
  destruct (_state_change_requested (self w)) eqn:Hf.
  - destruct (decide (_state (self w) = Some PAUSE_REQUESTED)) as [Hs|Hs].
    + rewrite checkpoint_pause in Hc by done.
      clear Hfs Hf Hs.
      assert (is_fully_stopped (paused_world w) = false) as Hp.
      { apply is_fully_stopped_false. rewrite paused_world_state.
        split; discriminate. }
      assert (_paused (self (paused_world w)) = true) as Hpa
        by apply paused_world_paused.
      revert Hc Hp Hpa. generalize (paused_world w). clear w.
      induction sched as [|reqs sched IH]; intros w Hc Hp Hpa; simpl in Hc.
      * rewrite Hpa in Hc. by injection Hc as <- <- <-.
      * rewrite Hpa in Hc.
        set (w1 := apply_requests reqs (emit (Sleep POLL_INTERVAL) w)) in *.
        assert (is_fully_stopped w1 = false) as Hw1.
        { unfold w1. clear -Hp. unfold apply_requests.
          assert (is_fully_stopped (emit (Sleep POLL_INTERVAL) w) = false)
            as Hq by exact Hp.
          revert Hq. generalize (emit (Sleep POLL_INTERVAL) w).
          induction reqs as [|q reqs IHr]; intros w0 Hq; simpl; [done|].
          apply IHr. by rewrite apply_request_fully_stopped. }
        destruct (_paused (self w1)) eqn:Hp1.
        -- by apply (IH w1).
        -- rewrite _pause_wait_not_paused in Hc by done.
           by injection Hc as <- <- <-.
    + destruct (decide (_state (self w) = Some STOP_REQUESTED)) as [Hs1|Hs1].
      { rewrite checkpoint_stop in Hc by done. by injection Hc as <- <- <-. }
      destruct (decide (_state (self w) = Some RERUN_REQUESTED)) as [Hs2|Hs2].
      { rewrite checkpoint_rerun in Hc by done. by injection Hc as <- <- <-. }
      rewrite checkpoint_other_state in Hc by done.
      by injection Hc as <- <- <-.
  - rewrite checkpoint_flag_clear in Hc by done. by injection Hc as <- <- <-.
Qed.

Lemma apply_requests_fully_stopped qs w :
  is_fully_stopped (apply_requests qs w) = is_fully_stopped w.
Proof.
  unfold apply_requests. revert w.
  induction qs as [|q qs IH]; intros w; simpl; [done|].
  by rewrite IH, apply_request_fully_stopped.
Qed.





(** The startup is its test followed by its second part. *)
Lemma _run_startup_split tid sched w :
  _run_startup tid sched w
  = (_run_startup_test tid ;; _run_startup_commit) sched w.
Proof.
  unfold _run_startup, _run_startup_test, _run_startup_commit. unfold_M.
  destruct (decide (tid = _main_thread_id (self w))); [done|].
  by destruct (is_fully_stopped w).
Qed.



(** The same two threads one after the other: the second is refused. *)
Example second_thread_refused :
  running
    (run_startup_ops [Test 1; Commit 1; Test 2; Commit 2]
       (mkStartups two_requests [] []))
  = [1].
Proof. vm_compute. reflexivity. Qed.



(** ** The rewriter *)

Lemma _modify_node_import i node :
  is_import node = true -> _modify_node i node = node.
Proof. by destruct node. Qed.

Lemma _modify_node_docstring node :
  is_docstring node = true -> _modify_node 0 node = node.
Proof. destruct node as [[]| | | | |]; done. Qed.

Lemma _insert_import_after_import n0 rest :
  is_import n0 = true ->
  _insert_import_statement (n0 :: rest)
  = n0 :: _build_st_import_statement :: rest.
Proof. intros Hi. unfold _insert_import_statement. by rewrite Hi. Qed.

Lemma is_import_not_docstring n : is_import n = true -> is_docstring n = false.
Proof. by destruct n as [[]| | | | |]. Qed.

Lemma _insert_import_after_docstring n0 n1 rest :
  is_docstring n0 = true ->
  is_import n1 = true ->
  _insert_import_statement (n0 :: n1 :: rest)
  = n0 :: n1 :: _build_st_import_statement :: rest.
Proof.
  intros Hd Hi. unfold _insert_import_statement.
  assert (is_import n0 = false) as ->.
  { destruct (is_import n0) eqn:H0; [|done].
    apply is_import_not_docstring in H0. congruence. }
  by rewrite Hd, Hi.
Qed.

Lemma _insert_import_top_no_second_import n0 n1 rest :
  is_import n0 = false ->
  is_import n1 = false ->
  _insert_import_statement (n0 :: n1 :: rest)
  = _build_st_import_statement :: n0 :: n1 :: rest.
Proof.
  intros H0 H1. unfold _insert_import_statement.
  rewrite H0, H1, andb_false_r. done.
Qed.

Lemma _insert_import_top_plain n0 rest :
  is_import n0 = false ->
  is_docstring n0 = false ->
  _insert_import_statement (n0 :: rest)
  = _build_st_import_statement :: n0 :: rest.
Proof.
  intros H0 Hd. unfold _insert_import_statement.
  rewrite H0. destruct rest; [done|]. by rewrite Hd.
Qed.

Lemma _insert_import_top_single n0 :
  is_import n0 = false ->
  _insert_import_statement [n0] = [_build_st_import_statement; n0].
Proof. intros H0. unfold _insert_import_statement. by rewrite H0. Qed.

(** C9 as stated fails: a leading docstring that no import follows ends up
    below the inserted import, which lands at the very top. *)
Lemma _insert_import_above_docstring :
  head doc_assign_tree = Some (Expr (Str "doc")) /\
  _insert_import_statement doc_assign_tree
  = _build_st_import_statement :: doc_assign_tree /\
  _modify_tree doc_assign_tree true
  = _build_st_import_statement :: doc_assign_tree /\
  head (_insert_import_statement doc_assign_tree) <> head doc_assign_tree.
Proof. repeat split; try reflexivity. discriminate. Qed.

(** C9, as the code has it.  When the first statement is the one leading
    import, the import of the sink is inserted right after it; when the
    first statement is a docstring and the second the one import that
    follows it, right after the two; when the first statement is not an
    import and no docstring-then-import pair leads the tree, at the very
    top, a leading docstring that is not followed by an import included.
    For the tree of a docstring followed by [import os] the rewriter puts
    it after both.  Nothing is said here of a tree with several leading
    imports. *)
Theorem _insert_import_statement_spec (n0 n1 : stmt) (rest : list stmt) :
  (is_import n0 = true -> leading_import rest = false ->
     _insert_import_statement (n0 :: rest)
     = n0 :: _build_st_import_statement :: rest /\
     _modify_tree (n0 :: rest) true
     = n0 :: _build_st_import_statement :: _modify_each 1 rest) /\
  (is_docstring n0 = true -> is_import n1 = true ->
   leading_import rest = false ->
     _insert_import_statement (n0 :: n1 :: rest)
     = n0 :: n1 :: _build_st_import_statement :: rest /\
     _modify_tree (n0 :: n1 :: rest) true
     = n0 :: n1 :: _build_st_import_statement :: _modify_each 2 rest) /\
  (is_import n0 = false -> is_import n1 = false ->
     _insert_import_statement (n0 :: n1 :: rest)
     = _build_st_import_statement :: n0 :: n1 :: rest) /\
  (is_import n0 = false -> is_docstring n0 = false ->
     _insert_import_statement (n0 :: rest)
     = _build_st_import_statement :: n0 :: rest) /\
  (is_import n0 = false ->
     _insert_import_statement [n0] = [_build_st_import_statement; n0]) /\
  _insert_import_statement [] = [_build_st_import_statement] /\
  _modify_tree doc_import_tree true
  = doc_import_tree ++ [_build_st_import_statement].
Proof.
  split; [|split; [|split; [|split; [|split; [|split]]]]].
  - intros Hi _. split; [by apply _insert_import_after_import|].
    unfold _modify_tree. simpl _modify_each.
    rewrite (_modify_node_import 0 n0 Hi).
    by apply _insert_import_after_import.
  - intros Hd Hi _. split; [by apply _insert_import_after_docstring|].
    unfold _modify_tree. simpl _modify_each.
    rewrite (_modify_node_docstring n0 Hd), (_modify_node_import 1 n1 Hi).
    by apply _insert_import_after_docstring.
  - apply _insert_import_top_no_second_import.
  - apply _insert_import_top_plain.
  - apply _insert_import_top_single.
  - reflexivity.
  - reflexivity.
Qed.

Lemma _insert_import_statement_spec_witness :
  _insert_import_statement
    [ImportFrom "__future__" [mkAlias "division" None]; OtherStmt "pass"]
  = [ImportFrom "__future__" [mkAlias "division" None];
     _build_st_import_statement; OtherStmt "pass"] /\
  _insert_import_statement doc_import_tree
  = doc_import_tree ++ [_build_st_import_statement] /\
  _insert_import_statement doc_assign_tree
  = _build_st_import_statement :: doc_assign_tree /\
  _insert_import_statement [OtherStmt "pass"; OtherStmt "pass"]
  = [_build_st_import_statement; OtherStmt "pass"; OtherStmt "pass"] /\
  _insert_import_statement [Expr (Str "doc")]
  = [_build_st_import_statement; Expr (Str "doc")].
Proof.
  split; [|split; [|split; [|split]]].
  - apply (_insert_import_statement_spec
             (ImportFrom "__future__" [mkAlias "division" None])
             (OtherStmt "pass") [OtherStmt "pass"]);
      reflexivity.
  - apply (_insert_import_statement_spec
             (Expr (Str "doc")) (Import [mkAlias "os" None]) []);
      reflexivity.
  - apply (_insert_import_statement_spec
             (Expr (Str "doc")) (Assign [Name "x" Store] (OtherExpr "1")) []);
      reflexivity.
  - apply (_insert_import_statement_spec
             (OtherStmt "pass") (OtherStmt "pass") [OtherStmt "pass"]);
      reflexivity.
  - apply (_insert_import_statement_spec
             (Expr (Str "doc")) (OtherStmt "pass") []).
    reflexivity.
Defined.

(** With two leading imports the binding lands between them, not below
    them as the comment in the code intends. *)
Example _insert_import_between_imports :
  _insert_import_statement
    [ImportFrom "__future__" [mkAlias "division" None];
     ImportFrom "__future__" [mkAlias "print_function" None]]
  = [ImportFrom "__future__" [mkAlias "division" None];
     _build_st_import_statement;
     ImportFrom "__future__" [mkAlias "print_function" None]].
Proof. reflexivity. Qed.

(** The rewrites of the two statement shapes. *)
Example rewrite_bare_name :
  _modify_tree [Expr (Name "x" Load)] true
  = [_build_st_import_statement;
     Expr (_build_st_write_call [Str "**x**"; Name "x" Load])].
Proof. reflexivity. Qed.

Example rewrite_single_tuple :
  _modify_tree [Expr (Tuple [Call (Name "f" Load) [] []])] true
  = [_build_st_import_statement;
     Expr (_build_st_write_call [Call (Name "f" Load) [] []])].
Proof. reflexivity. Qed.

Example rewrite_assign_single_tuple :
  _modify_tree
    [Assign [Name "x" Store] (Tuple [Call (Name "f" Load) [] []])] false
  = [Assign [Name "x" Store]
       (_build_st_write_call [Call (Name "f" Load) [] []])].
Proof. reflexivity. Qed.

Example rewrite_function_body :
  _modify_tree
    [FunctionDef "g" [Expr (Str "doc"); Expr (Str "shown"); Expr (Name "y" Load)]]
    false
  = [FunctionDef "g"
       [Expr (Str "doc");
        Expr (_build_st_write_call [Str "shown"]);
        Expr (_build_st_write_call [Str "**y**"; Name "y" Load])]].
Proof. reflexivity. Qed.

(** ** The request API, call by call *)

(** C4. [request_rerun(argv)] always stores [argv] in the report.  When the
    runner is fully stopped it starts one thread and changes nothing else,
    and the startup of [_run] in that thread sets the state to [RUNNING].
    Otherwise the state becomes [RERUN_REQUESTED], the pause flag is
    cleared, the state-change flag is set and no thread is started.  A call
    made while the state is already [RERUN_REQUESTED] changes [argv] only:
    right after a first call, and for any runner whose flags are as a rerun
    request leaves them. *)
Theorem request_rerun_spec (new_argv argv2 : list string) (w : World) :
  let w' := request_rerun new_argv w in
  argv (_report (self w')) = new_argv /\
  (is_fully_stopped w = true ->
     trace w' = trace w ++ [SpawnThread] /\
     _state (self w') = _state (self w) /\
     _paused (self w') = _paused (self w) /\
     _state_change_requested (self w') = _state_change_requested (self w) /\
     forall tid sched, tid <> _main_thread_id (self w') ->
       exists w'', _run_startup tid sched w' = (Ok tt, sched, w'') /\
                   _state (self w'') = Some RUNNING) /\
  (is_fully_stopped w = false ->
     _state (self w') = Some RERUN_REQUESTED /\
     _paused (self w') = false /\
     _state_change_requested (self w') = true /\
     spawned w' = spawned w /\
     request_rerun argv2 w' = with_self (assign_argv argv2) w') /\
  (_state (self w) = Some RERUN_REQUESTED ->
   _paused (self w) = false ->
   _state_change_requested (self w) = true ->
     w' = with_self (assign_argv new_argv) w).
Proof.
  intros w'.
  destruct (request_rerun_cases new_argv w) as (H1 & H2 & H3 & H4).
  split; [exact H1|]. split; [exact H2|]. split; [|exact H4].
  intros Hfs. destruct (H3 Hfs) as (? & ? & ? & ? & Hagain).
  repeat split; try done.
Qed.

Lemma request_rerun_spec_witness :
  trace (request_rerun ["--fast"] (sample_world INITIAL false false))
    = [SpawnThread] /\
  _state (self (request_rerun ["--fast"] (sample_world RUNNING false false)))
    = Some RERUN_REQUESTED /\
  request_rerun ["b"] (sample_world RERUN_REQUESTED false true)
    = with_self (assign_argv ["b"]) (sample_world RERUN_REQUESTED false true).
Proof.
  split; [|split].
  - apply (request_rerun_spec ["--fast"] []
             (sample_world INITIAL false false)).
    reflexivity.
  - apply (request_rerun_spec ["--fast"] []
             (sample_world RUNNING false false)).
    reflexivity.
  - apply (request_rerun_spec ["b"] []
             (sample_world RERUN_REQUESTED false true));
      reflexivity.
Defined.

(** C7. [_set_state] sends no notification when the state is already the
    requested one, and exactly one, with the state stored, when it differs.
    Stop requests repeated on a running script send one [STOP_REQUESTED]
    notification in all, and none when the state is [STOP_REQUESTED]
    already. *)
Theorem _set_state_notifies_once (new_state : State) (n : nat) (w : World) :
  (_state (self w) = Some new_state -> _set_state new_state w = w) /\
  (_state (self w) <> Some new_state ->
     trace (_set_state new_state w) = trace w ++ [StateChanged new_state] /\
     _state (self (_set_state new_state w)) = Some new_state) /\
  (is_fully_stopped w = false ->
   _state (self w) <> Some STOP_REQUESTED ->
     trace (Nat.iter (S n) request_stop w)
     = trace w ++ [StateChanged STOP_REQUESTED]) /\
  (_state (self w) = Some STOP_REQUESTED ->
     trace (Nat.iter n request_stop w) = trace w).
Proof.
  destruct (_set_state_cases new_state w) as (H1 & H2 & H3 & H4).
  split; [exact H1|]. split; [exact H2|]. split.
  - intros Hfs Hs. by apply H3.
  - intros Hs. by apply H4.
Qed.

Lemma _set_state_notifies_once_witness :
  _set_state PAUSED (sample_world PAUSED true true)
    = sample_world PAUSED true true /\
  trace (_set_state STOPPED (sample_world RUNNING false false))
    = [StateChanged STOPPED] /\
  trace (Nat.iter 4 request_stop (sample_world RUNNING false false))
    = [StateChanged STOP_REQUESTED] /\
  trace (Nat.iter 4 request_stop (sample_world STOP_REQUESTED false true))
    = [].
Proof.
  split; [|split; [|split]].
  - apply (_set_state_notifies_once PAUSED 0 (sample_world PAUSED true true)).
    reflexivity.
  - apply (_set_state_notifies_once STOPPED 0
             (sample_world RUNNING false false)).
    discriminate.
  - apply (_set_state_notifies_once RUNNING 3
             (sample_world RUNNING false false)).
    + reflexivity.
    + discriminate.
  - apply (_set_state_notifies_once RUNNING 4
             (sample_world STOP_REQUESTED false true)).
    reflexivity.
Defined.

(** * Further properties *)

(** ** The request API *)

Lemma assign_argv_same r : assign_argv (argv (_report r)) r = r.
Proof. by destruct r as [[] ? ? ? ? ?]. Qed.

Lemma notified_emit e w :
  notified (trace (emit e w))
  = notified (trace w)
    ++ match e with StateChanged s => [s] | _ => [] end.
Proof. unfold notified. simpl. rewrite omap_app. by destruct e. Qed.

Lemma notified_set_state s w :
  notified (trace (_set_state s w)) = notified (trace w) \/
  notified (trace (_set_state s w)) = notified (trace w) ++ [s].
Proof.
  unfold _set_state. case_decide; [by left|]. right.
  by rewrite notified_emit.
Qed.

Lemma notified_request q w :
  notified (trace (apply_request q w)) = notified (trace w) \/
  exists s, notified (trace (apply_request q w)) = notified (trace w) ++ [s].
Proof.
  assert (forall a w0,
            notified (trace (request_rerun a w0)) = notified (trace w0) \/
            exists s, notified (trace (request_rerun a w0))
                      = notified (trace w0) ++ [s]) as Hrerun.
  { intros a w0. unfold request_rerun.
    destruct (is_fully_stopped (with_self (assign_argv a) w0)).
    - left. unfold spawn_script_thread. rewrite notified_emit. simpl.
      by rewrite app_nil_r.
    - destruct (notified_set_state RERUN_REQUESTED
                  (with_self (assign_argv a) w0)) as [Hn | Hn].
      + left. exact Hn.
      + right. eexists. exact Hn. }
  destruct q; simpl.
  - apply Hrerun.
  - unfold request_stop. destruct (is_fully_stopped w); [by left|].
    destruct (notified_set_state STOP_REQUESTED w) as [Hn | Hn];
      [left | right; eexists]; exact Hn.
  - unfold request_pause_unpause, _request_pause. case_decide.
    + destruct (notified_set_state RUNNING w) as [Hn | Hn];
        [left | right; eexists]; exact Hn.
    + destruct (is_fully_stopped w); [by left|].
      destruct (notified_set_state PAUSE_REQUESTED w) as [Hn | Hn];
        [left | right; eexists]; exact Hn.
  - unfold maybe_handle_file_changed. destruct (run_on_save (self w)).
    + apply Hrerun.
    + left. rewrite notified_emit. simpl. by rewrite app_nil_r.
Qed.

(** X1. A change of the script file with run-on-save off sends the single
    event [on_file_change_not_handled] and leaves the runner as it is.
    With run-on-save on it sends no such event and acts as a rerun request
    with the arguments unchanged: on a fully stopped runner one thread is
    started and the runner is left as it is, otherwise the state becomes
    [RERUN_REQUESTED], the pause flag is cleared, the state-change flag is
    set and no thread is started. *)
Theorem file_change_handling (w : World) :
  let w' := maybe_handle_file_changed w in
  (run_on_save (self w) = false ->
     self w' = self w /\ trace w' = trace w ++ [FileChangeNotHandled]) /\
  (run_on_save (self w) = true ->
     argv (_report (self w')) = argv (_report (self w)) /\
     (is_fully_stopped w = true ->
        self w' = self w /\ trace w' = trace w ++ [SpawnThread]) /\
     (is_fully_stopped w = false ->
        _state (self w') = Some RERUN_REQUESTED /\
        _paused (self w') = false /\
        _state_change_requested (self w') = true /\
        spawned w' = spawned w /\
        (trace w' = trace w \/
         trace w' = trace w ++ [StateChanged RERUN_REQUESTED]))).
Proof.
  intros w'. unfold w', maybe_handle_file_changed. split.
  - intros ->. by split.
  - intros ->.
    destruct (request_rerun_cases (argv (_report (self w))) w)
      as (Ha & Hs & Hn & _).
    split; [exact Ha|]. split.
    + intros Hfs. destruct (Hs Hfs) as (Ht & _). split; [|exact Ht].
      unfold request_rerun.
      change (is_fully_stopped
                (with_self (assign_argv (argv (_report (self w)))) w))
        with (is_fully_stopped w).
      rewrite Hfs. simpl. apply assign_argv_same.
    + intros Hfs. destruct (Hn Hfs) as (H1 & H2 & H3 & H4 & _).
      repeat split; try done.
      unfold request_rerun.
      change (is_fully_stopped
                (with_self (assign_argv (argv (_report (self w)))) w))
        with (is_fully_stopped w).
      rewrite Hfs. simpl. unfold _set_state. case_decide; [by left|by right].
Qed.

Lemma file_change_handling_witness :
  trace (maybe_handle_file_changed (sample_world RUNNING false false))
    = [FileChangeNotHandled] /\
  trace (maybe_handle_file_changed
           (on_save_world STOPPED false false))
    = [SpawnThread] /\
  _state (self (maybe_handle_file_changed
           (on_save_world PAUSED true false)))
    = Some RERUN_REQUESTED.
Proof.
  split; [|split].
  - apply (file_change_handling (sample_world RUNNING false false)).
    reflexivity.
  - apply (file_change_handling
             (on_save_world STOPPED false false)); reflexivity.
  - apply (file_change_handling
             (on_save_world PAUSED true false)); reflexivity.
Defined.

(** X2. No request of the controller moves the runner into or out of the
    fully stopped states, whatever the sequence of requests: only a worker
    stops or starts a run.  A request never clears the state-change flag,
    and it sends at most one state-changed notification. *)
Theorem requests_keep_run_status (q : request) (qs : list request) (w : World) :
  is_fully_stopped (apply_request q w) = is_fully_stopped w /\
  is_fully_stopped (apply_requests qs w) = is_fully_stopped w /\
  (_state_change_requested (self w) = true ->
     _state_change_requested (self (apply_request q w)) = true) /\
  (notified (trace (apply_request q w)) = notified (trace w) \/
   exists s,
     notified (trace (apply_request q w)) = notified (trace w) ++ [s]).
Proof.
  split; [apply apply_request_fully_stopped|].
  split; [apply apply_requests_fully_stopped|].
  split; [apply apply_request_flag|apply notified_request].
Qed.

Lemma requests_keep_run_status_witness :
  _state_change_requested
    (self (apply_request RequestPauseUnpause (sample_world PAUSED true true)))
  = true.
Proof.
  apply (requests_keep_run_status RequestPauseUnpause []
           (sample_world PAUSED true true)).
  reflexivity.
Defined.

(** ** Requests and the next checkpoint *)

(** X3. On a runner that is not fully stopped, a stop request is honoured
    by the next checkpoint whatever the controller asked before it: the
    checkpoint raises [StopException] and changes nothing.  The same holds
    for a rerun request and [RerunException], with the new arguments
    stored. *)
Theorem last_request_wins
    (qs : list request) (new_argv : list string) (sched : schedule)
    (w : World) :
  is_fully_stopped w = false ->
  maybe_handle_execution_control_request sched
    (request_stop (apply_requests qs w))
  = (Raise StopException, sched, request_stop (apply_requests qs w)) /\
  maybe_handle_execution_control_request sched
    (request_rerun new_argv (apply_requests qs w))
  = (Raise RerunException, sched,
     request_rerun new_argv (apply_requests qs w)) /\
  argv (_report (self (request_rerun new_argv (apply_requests qs w))))
  = new_argv.
Proof.
  intros Hfs.
  assert (is_fully_stopped (apply_requests qs w) = false) as Hfs'
    by by rewrite apply_requests_fully_stopped.
  split; [|split].
  - apply checkpoint_stop.
    + unfold request_stop. by rewrite Hfs'.
    + by apply request_stop_state.
  - destruct (request_rerun_cases new_argv (apply_requests qs w))
      as (_ & _ & Hn & _).
    destruct (Hn Hfs') as (Hs & _ & Hf & _).
    by apply checkpoint_rerun.
  - apply request_rerun_cases.
Qed.

Lemma last_request_wins_witness :
  maybe_handle_execution_control_request []
    (request_stop
       (apply_requests [RequestPauseUnpause; RequestRerun ["a"]]
          (sample_world RUNNING false false)))
  = (Raise StopException, [],
     request_stop
       (apply_requests [RequestPauseUnpause; RequestRerun ["a"]]
          (sample_world RUNNING false false))).
Proof.
  apply (last_request_wins [RequestPauseUnpause; RequestRerun ["a"]] [] []
           (sample_world RUNNING false false)).
  reflexivity.
Defined.

Lemma request_pause_after_request w :
  is_fully_stopped w = false ->
  _state (self w) <> Some PAUSED ->
  _state (self (request_pause_unpause w)) = Some PAUSE_REQUESTED /\
  _state_change_requested (self (request_pause_unpause w)) = true.
Proof.
  intros Hfs Hs. unfold request_pause_unpause, _request_pause.
  rewrite decide_False by done. rewrite Hfs. simpl.
  by rewrite _set_state_state.
Qed.

(** X4. A pause toggle issued while a stop or a rerun is pending replaces
    it: the state becomes [PAUSE_REQUESTED], the next checkpoint pauses
    instead of raising, and once a second toggle resumes the script the
    state is [RUNNING] and checkpoints do nothing: the stop or rerun that
    was asked for is forgotten. *)
Theorem pause_replaces_pending_request
    (q : request) (n : nat) (rest sched : schedule) (w : World) :
  is_fully_stopped w = false ->
  q = RequestStop \/ (exists a, q = RequestRerun a) ->
  let w1 := request_pause_unpause (apply_request q w) in
  let w3 := request_pause_unpause (asleep (S n) (paused_world w1)) in
  _state (self w1) = Some PAUSE_REQUESTED /\
  maybe_handle_execution_control_request
    (replicate n [] ++ [RequestPauseUnpause] :: rest) w1
  = (Ok tt, rest, w3) /\
  _state (self w3) = Some RUNNING /\
  maybe_handle_execution_control_request sched w3 = (Ok tt, sched, w3).
Proof.
  intros Hfs Hq w1 w3.
  assert (is_fully_stopped (apply_request q w) = false) as Hfs'
    by by rewrite apply_request_fully_stopped.
  assert (_state (self (apply_request q w)) <> Some PAUSED) as Hnp.
  { destruct Hq as [-> | [a ->]]; simpl.
    - rewrite request_stop_state by done. discriminate.
    - destruct (request_rerun_cases a w) as (_ & _ & Hn & _).
      destruct (Hn Hfs) as (-> & _). discriminate. }
  destruct (request_pause_after_request _ Hfs' Hnp) as [Hs1 Hf1].
  fold w1 in Hs1, Hf1.
  assert (_state (self (asleep (S n) (paused_world w1))) = Some PAUSED) as Hs2.
  { rewrite asleep_self. apply paused_world_state. }
  destruct (request_pause_unpause_paused _ Hs2) as (Hs3 & _).
  fold w3 in Hs3.
  split; [exact Hs1|]. split; [|split; [exact Hs3|]].
  - by apply (checkpoint_pause_released n RequestPauseUnpause rest w1).
  - apply checkpoint_other_state; rewrite Hs3; discriminate.
Qed.

Lemma pause_replaces_pending_request_witness :
  let w1 := request_pause_unpause
              (apply_request RequestStop (sample_world RUNNING false false)) in
  let w3 := request_pause_unpause (asleep 1 (paused_world w1)) in
  _state (self w1) = Some PAUSE_REQUESTED /\
  maybe_handle_execution_control_request
    (replicate 0 [] ++ [RequestPauseUnpause] :: []) w1
  = (Ok tt, [], w3) /\
  _state (self w3) = Some RUNNING /\
  maybe_handle_execution_control_request [] w3 = (Ok tt, [], w3).
Proof.
  apply (pause_replaces_pending_request RequestStop 0 [] []
           (sample_world RUNNING false false)).
  - reflexivity.
  - left. reflexivity.
Defined.

(** X5. A stop or a rerun that arrives while the worker is paused releases
    it: the checkpoint in which the worker was blocked returns normally,
    with the request recorded in the state, and the checkpoint after it
    raises the matching exception. *)
Theorem request_while_paused
    (n : nat) (new_argv : list string) (rest : schedule) (w : World) :
  _state_change_requested (self w) = true ->
  _state (self w) = Some PAUSE_REQUESTED ->
  let ws := request_stop (asleep (S n) (paused_world w)) in
  let wr := request_rerun new_argv (asleep (S n) (paused_world w)) in
  (maybe_handle_execution_control_request
     (replicate n [] ++ [RequestStop] :: rest) w
   = (Ok tt, rest, ws) /\
   _state (self ws) = Some STOP_REQUESTED /\
   maybe_handle_execution_control_request rest ws
   = (Raise StopException, rest, ws)) /\
  (maybe_handle_execution_control_request
     (replicate n [] ++ [RequestRerun new_argv] :: rest) w
   = (Ok tt, rest, wr) /\
   _state (self wr) = Some RERUN_REQUESTED /\
   argv (_report (self wr)) = new_argv /\
   maybe_handle_execution_control_request rest wr
   = (Raise RerunException, rest, wr)).
Proof.
  intros Hf Hs ws wr.
  assert (is_fully_stopped (asleep (S n) (paused_world w)) = false) as Hfs.
  { apply is_fully_stopped_false. rewrite asleep_self, paused_world_state.
    split; discriminate. }
  split.
  - split; [by apply (checkpoint_pause_released n RequestStop rest w)|].
    assert (_state (self ws) = Some STOP_REQUESTED) as Hss
      by by apply request_stop_state.
    split; [exact Hss|]. apply checkpoint_stop; [|exact Hss].
    unfold ws, request_stop. by rewrite Hfs.
  - split;
      [by apply (checkpoint_pause_released n (RequestRerun new_argv) rest w)|].
    destruct (request_rerun_cases new_argv (asleep (S n) (paused_world w)))
      as (Ha & _ & Hn & _).
    destruct (Hn Hfs) as (Hsr & _ & Hfr & _).
    split; [exact Hsr|]. split; [exact Ha|]. by apply checkpoint_rerun.
Qed.

Lemma request_while_paused_witness :
  let ws := request_stop
              (asleep 2 (paused_world (sample_world PAUSE_REQUESTED false true)))
  in
  maybe_handle_execution_control_request
    (replicate 1 [] ++ [RequestStop] :: [[RequestStop]])
    (sample_world PAUSE_REQUESTED false true)
  = (Ok tt, [[RequestStop]], ws) /\
  _state (self ws) = Some STOP_REQUESTED /\
  maybe_handle_execution_control_request [[RequestStop]] ws
  = (Raise StopException, [[RequestStop]], ws).
Proof.
  apply (request_while_paused 1 [] [[RequestStop]]
           (sample_world PAUSE_REQUESTED false true)); reflexivity.
Defined.

(** ** Threads *)

Lemma apply_request_spawned_busy q w :
  is_fully_stopped w = false -> spawned (apply_request q w) = spawned w.
Proof.
  intros Hfs. destruct (decide (spawned (apply_request q w) = spawned w))
    as [Heq | Hne]; [done|].
  apply apply_request_spawned in Hne. congruence.
Qed.

Section DeadWorker.
Context `{Python}.

Lemma orphaned_step sys sys' :
  step sys sys' ->
  orphaned sys -> orphaned sys' /\
                  spawned (world sys') = spawned (world sys).
Proof.
  unfold orphaned.
  destruct 1 as
    [ q w b ws
    | tid w b ws w' Hb Hs
    | tid w b ws e w' Hb Hs
    | tid w b ws1 ws2 fb w' Hl
    | tid w b ws1 ws2 e w' Hl
    | tid w b ws1 ws2 v
    | tid w b ws1 ws2 r w' Hc
    | tid w b ws1 ws2 Hp
    | tid w b ws1 ws2 Hp
    | tid w b ws1 ws2 o rerun w' Hg
    | tid w b ws1 ws2 w' Hs
    | tid w b ws1 ws2 e w' Hs ]; simpl; intros (Hws & Hb' & Hfs);
    try (by destruct ws1); try lia.
  rewrite apply_request_fully_stopped, apply_request_spawned_busy by done.
  done.
Qed.

Lemma orphaned_rtc sys sys' :
  rtc step sys sys' ->
  orphaned sys -> orphaned sys' /\
                  spawned (world sys') = spawned (world sys).
Proof.
  induction 1 as [sys|sys1 sys2 sys3 Hstep _ IH]; intros Ho; [done|].
  destruct (orphaned_step _ _ Hstep Ho) as [Ho2 Hsp2].
  destruct (IH Ho2) as [Ho3 Hsp3]. split; [done|congruence].
Qed.

End DeadWorker.

(** X7. Once no script thread is left while the state is not fully stopped
    (the worker died outside the [try] statement, on a missing file or on a
    script the rewriter cannot parse), the runner stays so for ever:
    whatever the controller asks, no thread is started again and the state
    never becomes [INITIAL] or [STOPPED]. *)
Theorem dead_worker_blocks_runner `{Python} (sys sys' : System) :
  workers sys = [] ->
  begun sys = spawned (world sys) ->
  is_fully_stopped (world sys) = false ->
  rtc step sys sys' ->
  workers sys' = [] /\
  spawned (world sys') = spawned (world sys) /\
  is_fully_stopped (world sys') = false.
Proof.
  intros Hws Hb Hfs Hr.
  destruct (orphaned_rtc sys sys' Hr) as [(Hws' & _ & Hfs') Hsp]; [done|].
  done.
Qed.

Lemma malformed_orphan_reachable :
  @reachable demo_python (demo_world true "x = (") malformed_orphan.
Proof.
  unfold reachable, boot, malformed_orphan.
  eapply rtc_l; [apply (step_request (RequestRerun []))|].
  eapply rtc_l; [apply (step_begin_ok 1); [vm_compute; lia|reflexivity]|].
  eapply rtc_l; [|apply rtc_refl].
  apply (step_load_fail 1 _ 1 [] [] (SyntaxError "invalid syntax")).
  vm_compute. reflexivity.
Defined.

Lemma dead_worker_blocks_runner_witness :
  workers malformed_orphan_asked = [] /\
  spawned (world malformed_orphan_asked) = spawned (world malformed_orphan) /\
  is_fully_stopped (world malformed_orphan_asked) = false.
Proof.
  apply (@dead_worker_blocks_runner demo_python malformed_orphan
           malformed_orphan_asked).
  - reflexivity.
  - vm_compute. reflexivity.
  - vm_compute. reflexivity.
  - apply rtc_once.
    exact (@step_request demo_python (RequestRerun ["again"])
             (started (request_rerun [] (demo_world true "x = ("))) 1 []).
Defined.

(** ** Calls of [_run] *)

(** X8. A call of [_run] that returns leaves the state [STOPPED], whatever
    the script did and however many times it was rerun. *)
Theorem run_ends_stopped `{Python}
    (fuel tid : nat) (sched sched' : schedule) (w w' : World) :
  _run fuel tid sched w = (Ok tt, sched', w') ->
  _state (self w') = Some STOPPED /\ is_fully_stopped w' = true.
Proof.
  intros Hr. apply _run_returns_stopped in Hr. split; [exact Hr|].
  apply is_fully_stopped_true. by right.
Qed.

Lemma run_ends_stopped_witness :
  _state (self stop_run.2) = Some STOPPED /\
  is_fully_stopped stop_run.2 = true.
Proof.
  apply (@run_ends_stopped demo_python 1 1 [] stop_run.1.2
           (demo_world false stop_text) stop_run.2).
  vm_compute. reflexivity.
Defined.

(** X10. When the script file does not exist, [_run] raises the error of
    [open] after the state was set to [RUNNING]: nothing is sent to the
    sink, the state is not set back to [STOPPED], and the only effects are
    the reset of the sink and the [RUNNING] notification. *)
Theorem run_missing_file `{Python}
    (fuel tid : nat) (sched : schedule) (w : World) :
  tid <> _main_thread_id (self w) ->
  is_fully_stopped w = true ->
  files w !! script_path (_report (self w)) = None ->
  _run fuel tid sched w
  = (Raise (IOError (script_path (_report (self w)))), sched, started w) /\
  _state (self (started w)) = Some RUNNING /\
  trace (started w) = trace w ++ [StReset; StateChanged RUNNING].
Proof.
  intros Htid Hfs Hf. split; [|split].
  - rewrite _run_unfold, _run_once_unfold.
    rewrite _run_startup_ok by done.
    rewrite _run_load_missing.
    + by rewrite started_report.
    + by rewrite started_files, started_report.
  - apply started_state.
  - by apply started_trace.
Qed.

Lemma run_missing_file_witness :
  @_run demo_python 1 1 [] missing_world
  = (Raise (IOError (script_path (_report (self missing_world)))), [],
     started missing_world) /\
  _state (self (started missing_world)) = Some RUNNING /\
  trace (started missing_world)
  = trace missing_world ++ [StReset; StateChanged RUNNING].
Proof.
  apply (@run_missing_file demo_python 1 1 [] missing_world).
  - vm_compute. discriminate.
  - vm_compute. reflexivity.
  - vm_compute. reflexivity.
Defined.



(** X12. When the script raises [RerunException], [_run] sets the state to
    [STOPPED] and calls itself again in the same thread, from the world the
    first pass left: the runner is fully stopped at that point, so the
    startup of the second call goes through. *)
Theorem run_rerun_restart `{Python}
    (fuel tid : nat) (sched sched' : schedule) (w w1 w' : World)
    (filebody : string + list stmt) :
  tid <> _main_thread_id (self w) ->
  is_fully_stopped w = true ->
  _run_load sched (started w) = (Ok filebody, sched, w1) ->
  _run_body filebody sched w1 = (Raise RerunException, sched', w') ->
  let w2 := _set_state STOPPED w' in
  _run (S fuel) tid sched w = _run fuel tid sched' w2 /\
  is_fully_stopped w2 = true /\
  (tid <> _main_thread_id (self w2) ->
   _run_startup tid sched' w2 = (Ok tt, sched', started w2)).
Proof.
  intros Htid Hfs Hl Hb.
  by apply (_run_rerun_restarts fuel tid sched w filebody w1).
Qed.

Lemma run_rerun_restart_witness :
  @_run demo_python 1 1 [] (demo_world false two_pass_text)
  = @_run demo_python 0 1 two_pass_first.1.2
      (_set_state STOPPED two_pass_first.2).
Proof.
  assert (1 <> _main_thread_id (self (demo_world false two_pass_text))) as H1
    by (vm_compute; discriminate).
  assert (is_fully_stopped (demo_world false two_pass_text) = true) as H2
    by (vm_compute; reflexivity).
  assert (@_run_load demo_python [] (started (demo_world false two_pass_text))
          = (Ok (inl two_pass_text), [],
             loaded (started (demo_world false two_pass_text)))) as H3
    by (vm_compute; reflexivity).
  assert (@_run_body demo_python (inl two_pass_text) []
            (loaded (started (demo_world false two_pass_text)))
          = (Raise RerunException, two_pass_first.1.2, two_pass_first.2))
    as H4 by (vm_compute; reflexivity).
  exact (proj1 (@run_rerun_restart demo_python 0 1 [] two_pass_first.1.2
                  (demo_world false two_pass_text) _ two_pass_first.2
                  (inl two_pass_text) H1 H2 H3 H4)).
Defined.

(** ** The rewriter, statement by statement *)

Lemma stmt_nested_ind (P : stmt -> Prop) :
  (forall v, P (Expr v)) ->
  (forall targets v, P (Assign targets v)) ->
  (forall fname fbody, Forall P fbody -> P (FunctionDef fname fbody)) ->
  (forall names, P (Import names)) ->
  (forall module names, P (ImportFrom module names)) ->
  (forall src, P (OtherStmt src)) ->
  forall node, P node.
Proof.
  intros HE HA HF HI HIF HO. fix IH 1. intros [v|targets v|fname fbody|ns|m ns|s].
  - apply HE.
  - apply HA.
  - apply HF. induction fbody as [|n rest IHrest].
    + constructor.
    + constructor; [apply IH|exact IHrest].
  - apply HI.
  - apply HIF.
  - apply HO.
Qed.

Lemma _modify_node_FunctionDef i fname fbody :
  _modify_node i (FunctionDef fname fbody)
  = FunctionDef fname (_modify_each 0 fbody).
Proof.
  reflexivity.
Qed.

Lemma _modify_each_length i l : length (_modify_each i l) = length l.
Proof.
  revert i. induction l as [|n rest IH]; intros i; simpl; [done|].
  by rewrite IH.
Qed.

Lemma _modify_node_is_import i node :
  is_import (_modify_node i node) = is_import node.
Proof.
  destruct node as [v|targets v| | | |]; try done; simpl.
  - by destruct (_get_st_write_from_expr v i).
  - by destruct (_get_st_write_from_assign v i).
Qed.

Lemma _modify_node_is_docstring node :
  is_docstring (_modify_node 0 node) = is_docstring node.
Proof.
  destruct node as [v|targets v| | | |]; try done; simpl.
  - destruct v as [s|id ctx|val attr ctx|f args kw|elts|src]; try done.
    by destruct elts as [|x [|y l]].
  - by destruct (_get_st_write_from_assign v 0).
Qed.

Lemma _get_st_write_from_expr_call v i c :
  _get_st_write_from_expr v i = Some c -> is_call c = true.
Proof.
  destruct v as [s|id ctx|val attr ctx|f args kw|elts|src]; simpl;
    try (by intros [= <-]).
  - case_decide; [done|]. by intros [= <-].
  - destruct elts as [|x [|y l]]; by intros [= <-].
Qed.

Lemma _get_st_write_from_assign_call v i c :
  _get_st_write_from_assign v i = Some c -> is_call c = true.
Proof.
  destruct v as [s|id ctx|val attr ctx|f args kw|elts|src]; simpl; try done.
  destruct elts as [|x [|y l]]; try done. by intros [= <-].
Qed.

Lemma _get_st_write_from_expr_of_call c i :
  is_call c = true -> _get_st_write_from_expr c i = None.
Proof. by destruct c. Qed.

Lemma _get_st_write_from_assign_of_call c i :
  is_call c = true -> _get_st_write_from_assign c i = None.
Proof. by destruct c. Qed.

Lemma _modify_node_idempotent node :
  forall i, _modify_node i (_modify_node i node) = _modify_node i node.
Proof.
  induction node as [v|targets v|fname fbody IH|ns|m ns|s]
    using stmt_nested_ind; intros i; try done.
  - simpl. destruct (_get_st_write_from_expr v i) as [c|] eqn:Hc; simpl.
    + apply _get_st_write_from_expr_call in Hc.
      by rewrite _get_st_write_from_expr_of_call.
    + by rewrite Hc.
  - simpl. destruct (_get_st_write_from_assign v i) as [c|] eqn:Hc; simpl.
    + apply _get_st_write_from_assign_call in Hc.
      by rewrite _get_st_write_from_assign_of_call.
    + by rewrite Hc.
  - rewrite !_modify_node_FunctionDef. f_equal. generalize 0.
    induction IH as [|n rest Hn _ IHrest]; intros j; [done|].
    simpl. by rewrite Hn, IHrest.
Qed.

Lemma _modify_each_idempotent i l :
  _modify_each i (_modify_each i l) = _modify_each i l.
Proof.
  revert i. induction l as [|n rest IH]; intros i; simpl; [done|].
  by rewrite _modify_node_idempotent, IH.
Qed.

(** X13. The rewriter leaves an expression statement as it is exactly when
    its value is a call, or a string and the statement is the first of its
    body; any other expression statement gets a call of
    [__streamlit__._transparent_write] as its value.  It leaves an
    assignment as it is exactly when the right-hand side is not a tuple
    literal of one element.  Imports and the statements of any other kind
    are never changed. *)
Theorem rewriter_leaves_alone
    (i : nat) (value : expr) (targets : list expr) (node : stmt) :
  (_modify_node i (Expr value) = Expr value <->
     is_call value = true \/ (is_str value = true /\ i = 0)) /\
  (_modify_node i (Expr value) <> Expr value ->
     exists arg args,
       _modify_node i (Expr value)
       = Expr (_build_st_write_call (arg :: args))) /\
  (_modify_node i (Assign targets value) = Assign targets value <->
     is_single_tuple value = false) /\
  (is_single_tuple value = true ->
     exists elt,
       value = Tuple [elt] /\
       _modify_node i (Assign targets value)
       = Assign targets (_build_st_write_call [elt])) /\
  (is_import node = true -> _modify_node i node = node) /\
  (forall src, _modify_node i (OtherStmt src) = OtherStmt src).
Proof.
  split; [|split; [|split; [|split; [|split]]]].
  - destruct value as [s|id ctx|val attr ctx|f args kw|elts|src]; simpl.
    + case_decide; split; try done; try tauto.
      intros [? | [_ ?]]; done.
    + split; [done|]. intros [? | [? _]]; done.
    + split; [done|]. intros [? | [? _]]; done.
    + split; [tauto|done].
    + destruct elts as [|x [|y l]]; (split; [done|]);
        intros [? | [? _]]; done.
    + split; [done|]. intros [? | [? _]]; done.
  - destruct value as [s|id ctx|val attr ctx|f args kw|elts|src]; simpl;
      try (intros _; eexists _, _; reflexivity); try done.
    + case_decide; [done|]. intros _. eexists _, _. reflexivity.
    + destruct elts as [|x [|y l]]; intros _; eexists _, _; reflexivity.
  - destruct value as [s|id ctx|val attr ctx|f args kw|elts|src]; simpl;
      try done.
    destruct elts as [|x [|y l]]; simpl; try done.
  - destruct value as [s|id ctx|val attr ctx|f args kw|elts|src]; simpl;
      try done.
    destruct elts as [|x [|y l]]; simpl; try done.
    intros _. by exists x.
  - apply _modify_node_import.
  - done.
Qed.

Lemma rewriter_leaves_alone_witness :
  _modify_node 0 (Expr (Str "doc")) = Expr (Str "doc") /\
  (exists arg args,
     _modify_node 3 (Expr (Str "shown"))
     = Expr (_build_st_write_call (arg :: args))) /\
  _modify_node 1 (Assign [Name "x" Store] (Name "y" Load))
    = Assign [Name "x" Store] (Name "y" Load) /\
  (exists elt,
     Tuple [Name "y" Load] = Tuple [elt] /\
     _modify_node 1 (Assign [Name "x" Store] (Tuple [Name "y" Load]))
     = Assign [Name "x" Store] (_build_st_write_call [elt])) /\
  _modify_node 2 (Import [mkAlias "os" None]) = Import [mkAlias "os" None].
Proof.
  split; [|split; [|split; [|split]]].
  - apply (rewriter_leaves_alone 0 (Str "doc") [] (OtherStmt "pass")).
    right. split; reflexivity.
  - apply (rewriter_leaves_alone 3 (Str "shown") [] (OtherStmt "pass")).
    discriminate.
  - apply (rewriter_leaves_alone 1 (Name "y" Load) [Name "x" Store]
             (OtherStmt "pass")).
    reflexivity.
  - apply (rewriter_leaves_alone 1 (Tuple [Name "y" Load]) [Name "x" Store]
             (OtherStmt "pass")).
    reflexivity.
  - apply (rewriter_leaves_alone 2 (Str "doc") []
             (Import [mkAlias "os" None])).
    reflexivity.
Defined.

(** X14. Rewriting without the import is idempotent: a body that went
    through the rewriter is left as it is by a second pass, function bodies
    included, since the calls the first pass built are not wrapped again.
    The statements are rewritten in place: the number of statements is
    kept, and a pass at the root adds one. *)
Theorem rewriter_idempotent (i : nat) (body : list stmt) :
  _modify_each i (_modify_each i body) = _modify_each i body /\
  _modify_tree (_modify_tree body false) false = _modify_tree body false /\
  length (_modify_tree body false) = length body /\
  length (_modify_tree body true) = S (length body).
Proof.
  split; [apply _modify_each_idempotent|].
  split; [apply _modify_each_idempotent|].
  split; [apply _modify_each_length|].
  unfold _modify_tree.
  assert (forall l, length (_insert_import_statement l) = S (length l)) as Hi.
  { intros l. unfold _insert_import_statement, py_insert.
    destruct l as [|n0 [|n1 rest]]; simpl.
    - done.
    - by destruct (is_import n0).
    - by destruct (is_import n0), (is_docstring n0 && is_import n1). }
  by rewrite Hi, _modify_each_length.
Qed.

Lemma _insert_import_top_no_pair n0 n1 rest :
  is_import n0 = false ->
  is_docstring n0 && is_import n1 = false ->
  _insert_import_statement (n0 :: n1 :: rest)
  = _build_st_import_statement :: n0 :: n1 :: rest.
Proof.
  intros H0 H1. unfold _insert_import_statement. by rewrite H0, H1.
Qed.

(** X15. In the tree the rewriter returns at the root, the import of the
    sink comes after at most two statements, which are statements of the
    input left as they were (one import, or a docstring and an import), and
    every statement the rewriter may have changed comes after it, rewritten
    with the index it had in the input. *)
Theorem import_precedes_rewrites (body : list stmt) :
  exists k,
    k <= 2 /\ k <= length body /\
    _modify_tree body true
    = take k body ++ _build_st_import_statement
        :: _modify_each k (drop k body) /\
    Forall (fun n => is_import n = true \/ is_docstring n = true)
           (take k body).
Proof.
  unfold _modify_tree.
  destruct body as [|n0 rest].
  { exists 0. repeat split; try done; simpl; lia. }
  destruct (is_import n0) eqn:H0.
  { exists 1. split; [lia|]. split; [simpl; lia|]. split.
    - simpl _modify_each. rewrite (_modify_node_import 0 n0 H0).
      by rewrite _insert_import_after_import.
    - simpl. constructor; [by left|constructor]. }
  destruct rest as [|n1 rest].
  { exists 0. split; [lia|]. split; [simpl; lia|]. split; [|constructor].
    simpl _modify_each. apply _insert_import_top_single.
    by rewrite _modify_node_is_import. }
  destruct (is_docstring n0 && is_import n1) eqn:H1.
  - apply andb_true_iff in H1 as [Hd Hi].
    exists 2. split; [lia|]. split; [simpl; lia|]. split.
    + simpl _modify_each.
      rewrite (_modify_node_docstring n0 Hd), (_modify_node_import 1 n1 Hi).
      by rewrite _insert_import_after_docstring.
    + simpl. constructor; [by right|]. constructor; [by left|constructor].
  - exists 0. split; [lia|]. split; [simpl; lia|]. split; [|constructor].
    simpl _modify_each. apply _insert_import_top_no_pair.
    + by rewrite _modify_node_is_import.
    + by rewrite _modify_node_is_docstring, _modify_node_is_import.
Qed.

(** A second pass at the root is not idempotent: it adds a second import,
    and a docstring that the first import pushed down is wrapped. *)
Example second_root_pass :
  _modify_tree (_modify_tree doc_assign_tree true) true
  = [_build_st_import_statement;
     _build_st_import_statement;
     Expr (_build_st_write_call [Str "doc"]);
     Assign [Name "x" Store] (OtherExpr "1")].
Proof. reflexivity. Qed.

(** ** File changes during a pause *)

Lemma ignoring_self n w : self (ignoring n w) = self w.
Proof. induction n as [|n IH]; simpl; [done|]. exact IH. Qed.

Lemma ignoring_succ n w :
  ignoring (S n) w
  = ignoring n (emit FileChangeNotHandled (emit (Sleep POLL_INTERVAL) w)).
Proof. unfold ignoring. by rewrite Nat.iter_succ_r. Qed.

Lemma _pause_wait_ignoring n w :
  _paused (self w) = true ->
  run_on_save (self w) = false ->
  _pause_wait (replicate n [FileChanged]) w = (Blocked, [], ignoring n w).
Proof.
  revert w. induction n as [|n IH]; intros w Hp Hr; simpl.
  - by rewrite Hp.
  - rewrite Hp. unfold maybe_handle_file_changed. simpl. rewrite Hr.
    rewrite IH by done. by rewrite <- ignoring_succ.
Qed.

Lemma file_change_cases w :
  run_on_save (self w) = true ->
  is_fully_stopped w = false ->
  _state (self (maybe_handle_file_changed w)) = Some RERUN_REQUESTED /\
  _paused (self (maybe_handle_file_changed w)) = false /\
  _state_change_requested (self (maybe_handle_file_changed w)) = true.
Proof.
  intros Hr Hfs. unfold maybe_handle_file_changed. rewrite Hr.
  destruct (request_rerun_cases (argv (_report (self w))) w)
    as (_ & _ & Hn & _).
  destruct (Hn Hfs) as (H1 & H2 & H3 & _). done.
Qed.

(** X16. While the worker is paused, changes of the script file with
    run-on-save off never wake it: each is answered by the event
    [on_file_change_not_handled] and the worker stays blocked in [PAUSED].
    With run-on-save on, the first change releases the worker, which
    returns from the checkpoint with a rerun pending and raises
    [RerunException] at the next one. *)
Theorem file_change_while_paused (n : nat) (rest : schedule) (w : World) :
  _state_change_requested (self w) = true ->
  _state (self w) = Some PAUSE_REQUESTED ->
  (run_on_save (self w) = false ->
     maybe_handle_execution_control_request (replicate n [FileChanged]) w
     = (Blocked, [], ignoring n (paused_world w)) /\
     _state (self (ignoring n (paused_world w))) = Some PAUSED /\
     _paused (self (ignoring n (paused_world w))) = true) /\
  (run_on_save (self w) = true ->
     let w' := maybe_handle_file_changed (asleep 1 (paused_world w)) in
     maybe_handle_execution_control_request ([FileChanged] :: rest) w
     = (Ok tt, rest, w') /\
     _state (self w') = Some RERUN_REQUESTED /\
     maybe_handle_execution_control_request rest w'
     = (Raise RerunException, rest, w')).
Proof.
  intros Hf Hs. split.
  - intros Hr. rewrite checkpoint_pause by done. split; [|split].
    + apply _pause_wait_ignoring; [apply paused_world_paused|].
      unfold paused_world, _set_state. by case_decide.
    + rewrite ignoring_self. apply paused_world_state.
    + rewrite ignoring_self. apply paused_world_paused.
  - intros Hr w'.
    assert (run_on_save (self (asleep 1 (paused_world w))) = true) as Hr'.
    { rewrite asleep_self. unfold paused_world, _set_state. by case_decide. }
    assert (is_fully_stopped (asleep 1 (paused_world w)) = false) as Hfs.
    { apply is_fully_stopped_false. rewrite asleep_self, paused_world_state.
      split; discriminate. }
    destruct (file_change_cases (asleep 1 (paused_world w)) Hr' Hfs)
      as (Hs' & Hp' & Hf').
    fold w' in Hs', Hp', Hf'.
    split; [|split; [exact Hs'|by apply checkpoint_rerun]].
    rewrite checkpoint_pause by done.
    apply (_pause_wait_released 0 [FileChanged] rest (paused_world w)).
    + apply paused_world_paused.
    + exact Hp'.
Qed.

Lemma file_change_while_paused_witness :
  maybe_handle_execution_control_request (replicate 2 [FileChanged])
    (sample_world PAUSE_REQUESTED false true)
  = (Blocked, [],
     ignoring 2 (paused_world (sample_world PAUSE_REQUESTED false true))) /\
  _state (self (maybe_handle_file_changed
                  (asleep 1
                     (paused_world (on_save_world PAUSE_REQUESTED false true)))))
  = Some RERUN_REQUESTED.
Proof.
  split.
  - apply (file_change_while_paused 2 []
             (sample_world PAUSE_REQUESTED false true)); reflexivity.
  - apply (file_change_while_paused 0 []
             (on_save_world PAUSE_REQUESTED false true)); reflexivity.
Defined.
